(** * tabtosound: the tablature reader of [dep/tab_parser.py]

    A shallow embedding of the class [Tab] (its constructor, [read] and
    [print]) and the properties of the decoder that the specification
    states about it.

    Python values are modelled as follows.
    - [str] is [string]; a one-character string is what indexing returns.
    - [int] is [Z]; list and string indices are Python integers, so a
      negative index counts from the end.
    - A raised exception is the [Raise] branch of [outcome].
    - The object [self] is the record [Tab]; a method is a function from
      the object before the call to the object after it and an outcome.
    - The file handed to [read] is its text, as [open(file, "r")] decodes
      it (newlines already translated); [readlines] cuts it after every
      newline.
      A file that cannot be opened or decoded is outside the model:
      [read] is the method from the lines of the file on.
    - What [print] writes is the list of the lines handed to the builtin
      [print].

    The file has the embedding first, then the wording of the
    specification and the closed forms of the loops, then the lemmas
    about the loops, and at the end one theorem for every claim of the
    specification. *)

From Stdlib Require Import ZArith Ascii.
From Stdlib Require String.
From stdpp Require Import base tactics option list strings.
From Equations Require Import Equations.
From Equations.Prop Require Import Logic.

Local Open Scope Z_scope.

(** ** Exceptions *)

Inductive exn : Set := IndexError | ValueError.

Inductive outcome (A : Type) : Type :=
| Ok (a : A)
| Raise (e : exn).
Arguments Ok {A} a.
Arguments Raise {A} e.

Definition obind {A B} (m : outcome A) (k : A → outcome B) : outcome B :=
  match m with
  | Ok a => k a
  | Raise e => Raise e
  end.

Notation "x ←? m ; k" := (obind m (λ x, k))
  (at level 20, m at level 100, k at level 200, right associativity,
   format "x  ←?  m ;  '/' k").

(** [[f(x) for x in xs]] where [f] may raise. *)
Fixpoint omap {A B} (f : A → outcome B) (xs : list A) : outcome (list B) :=
  match xs with
  | [] => Ok []
  | x :: xs' => y ←? f x; ys ←? omap f xs'; Ok (y :: ys)
  end.

(** [for x in xs: acc = body(x, acc)] over a local variable [acc]. *)
Fixpoint ofold {A S} (body : A → S → outcome S) (xs : list A) (acc : S)
  : outcome S :=
  match xs with
  | [] => Ok acc
  | x :: xs' => acc' ←? body x acc; ofold body xs' acc'
  end.

(** ** Python strings and lists *)

Definition newline : ascii := "010"%char.
Definition pipe : ascii := "|"%char.
Definition bracket : ascii := "["%char.

(** The one-character strings the source compares against. *)
Definition str_nl : string := String newline EmptyString.
Definition str_pipe : string := String pipe EmptyString.
Definition str_bracket : string := String bracket EmptyString.

Definition str_len (s : string) : Z := Z.of_nat (String.length s).

(** Index normalisation shared by [s[i]] and [l[i]]: [-len <= i < 0]
    counts from the end, anything outside [-len .. len-1] is an error. *)
Definition norm_index (len i : Z) : outcome nat :=
  if bool_decide (0 ≤ i < len) then Ok (Z.to_nat i)
  else if bool_decide (- len ≤ i < 0) then Ok (Z.to_nat (i + len))
  else Raise IndexError.

(** [s[i]] *)
Definition str_getitem (s : string) (i : Z) : outcome string :=
  n ←? norm_index (str_len s) i;
  match String.get n s with
  | Some c => Ok (String c EmptyString)
  | None => Raise IndexError
  end.

(** [l[i]] *)
Definition list_getitem {A} (l : list A) (i : Z) : outcome A :=
  n ←? norm_index (Z.of_nat (length l)) i;
  match l !! n with
  | Some x => Ok x
  | None => Raise IndexError
  end.

(** [l[i] = x] *)
Definition list_setitem {A} (l : list A) (i : Z) (x : A) : outcome (list A) :=
  n ←? norm_index (Z.of_nat (length l)) i;
  Ok (<[n := x]> l).

(** The bound of a slice: a negative bound counts from the end, and the
    bound is then clamped into [0 .. len]. *)
Definition slice_bound (len i : Z) : Z :=
  Z.max 0 (Z.min len (if bool_decide (i < 0) then i + len else i)).

(** [s[start:stop]] *)
Definition str_slice (s : string) (start stop : Z) : string :=
  let a := slice_bound (str_len s) start in
  let b := slice_bound (str_len s) stop in
  String.substring (Z.to_nat a) (Z.to_nat (b - a)) s.

(** [s.replace(old, new)] for a one-character [old]. *)
Fixpoint str_replace (old : ascii) (new : string) (s : string) : string :=
  match s with
  | EmptyString => EmptyString
  | String c s' =>
      if Ascii.eqb c old then new +:+ str_replace old new s'
      else String c (str_replace old new s')
  end.

(** [sep.join(parts)] *)
Definition str_join (sep : string) (parts : list string) : string :=
  String.concat sep parts.

(** [l.remove(x)]: drops the first element equal to [x]. *)
Fixpoint list_remove (x : string) (l : list string) : outcome (list string) :=
  match l with
  | [] => Raise ValueError
  | y :: l' =>
      if String.eqb y x then Ok l'
      else l'' ←? list_remove x l'; Ok (y :: l'')
  end.

(** [range(start, stop, step)] *)
Definition py_range3 (start stop step : Z) : outcome (list Z) :=
  if bool_decide (step = 0) then Raise ValueError
  else
    let count :=
      if bool_decide (0 < step) then (stop - start + step - 1) `div` step
      else (start - stop - step - 1) `div` (- step) in
    Ok ((λ k : nat, start + Z.of_nat k * step) <$> seq 0 (Z.to_nat count)).

(** [range(stop)] *)
Definition py_range (stop : Z) : list Z :=
  Z.of_nat <$> seq 0 (Z.to_nat stop).

(** [f.readlines()]: every line keeps its newline; only the last line can
    lack one, and no line is empty. *)
Fixpoint readlines (text : string) : list string :=
  match text with
  | EmptyString => []
  | String c rest =>
      if Ascii.eqb c newline then str_nl :: readlines rest
      else match readlines rest with
           | [] => [String c EmptyString]
           | line :: lines => String c line :: lines
           end
  end.

(** ** Methods: state and exceptions

    A method body runs over a state [S] (the object for [read], the
    output stream for [print]); an exception leaves the state as the
    statements before it made it. *)

Definition M (S A : Type) : Type := S → S * outcome A.

Definition sret {S A} (a : A) : M S A := λ s, (s, Ok a).

Definition sbind {S A B} (m : M S A) (k : A → M S B) : M S B :=
  λ s, match m s with
       | (s', Ok a) => k a s'
       | (s', Raise e) => (s', Raise e)
       end.

Definition lift {S A} (o : outcome A) : M S A := λ s, (s, o).
Definition gets {S A} (f : S → A) : M S A := λ s, (s, Ok (f s)).
Definition modify {S} (f : S → S) : M S unit := λ s, (f s, Ok tt).

Notation "x ←$ m ; k" := (sbind m (λ x, k))
  (at level 20, m at level 100, k at level 200, right associativity,
   format "x  ←$  m ;  '/' k").
Notation "'do' m ; k" := (sbind m (λ _, k))
  (at level 20, m at level 100, k at level 200, right associativity,
   format "'do'  m ;  '/' k").

(** [for x in xs: body(x)] *)
Fixpoint mfor {S A} (xs : list A) (body : A → M S unit) : M S unit :=
  match xs with
  | [] => sret tt
  | x :: xs' => do body x; mfor xs' body
  end.

(** ** The class [Tab] *)

Record Tab : Type := mkTab {
  symbols : list string;
  notes_sharps : list string;
  notes_flat : list string;
  tab : list string;
  tab_roots : list string;
  divisions : Z;
  timesignature : string;
  strings : Z
}.

(** [Tab.__init__(self, divisions, timesignature, strings)] *)
Definition init (divisions : Z) (timesignature : string) (strings : Z) : Tab :=
  {| symbols := ["/"; "\"; "~"; "h"; "p"; "b"];
     notes_sharps :=
       ["C"; "C#"; "D"; "D#"; "E"; "F"; "F#"; "G"; "G#"; "A"; "A#"; "B"];
     notes_flat :=
       ["C"; "Db"; "D"; "Eb"; "E"; "F"; "Gb"; "G"; "Ab"; "A"; "Bb"; "B"];
     tab := [];
     tab_roots := [];
     divisions := divisions;
     timesignature := timesignature;
     strings := strings |}.

(** The default of the parameter [strings]. *)
Definition init_default (divisions : Z) (timesignature : string) : Tab :=
  init divisions timesignature 6.

(** [self.tab_roots.append(c)] *)
Definition append_root (c : string) (self : Tab) : Tab :=
  {| symbols := symbols self;
     notes_sharps := notes_sharps self;
     notes_flat := notes_flat self;
     tab := tab self;
     tab_roots := tab_roots self ++ [c];
     divisions := divisions self;
     timesignature := timesignature self;
     strings := strings self |}.

(** [self.tab = result] *)
Definition set_tab (result : list string) (self : Tab) : Tab :=
  {| symbols := symbols self;
     notes_sharps := notes_sharps self;
     notes_flat := notes_flat self;
     tab := result;
     tab_roots := tab_roots self;
     divisions := divisions self;
     timesignature := timesignature self;
     strings := strings self |}.

(** *** [read]: removing blank lines and headers

    The body of the loop [for line in tab], on the line the iterator
    yielded: a line equal to a newline, or starting with a bracket, is
    taken out of [tab] with [tab.remove(line)]. *)
Definition remove_body (line : string) (lines : list string)
  : outcome (list string) :=
  if String.eqb line str_nl then list_remove line lines
  else
    c ←? str_getitem line 0;
    if String.eqb c str_bracket then list_remove line lines
    else Ok lines.

(** The loop [for line in tab] itself. Python's list iterator keeps an
    index [idx] into the list object: each round yields [tab[idx]] and
    moves on to [idx + 1], and stops once [idx] is no longer inside the
    list as it is then, after the removals the body has made. *)
Equations? remove_loop (lines : list string) (idx : nat)
  : outcome (list string) by wf (length lines - idx)%nat lt :=
remove_loop lines idx with inspect (lines !! idx) := {
  | exist _ None _ => Ok lines
  | exist _ (Some line) Hline with inspect (remove_body line lines) := {
      | exist _ (Raise e) _ => Raise e
      | exist _ (Ok lines') Hbody => remove_loop lines' (S idx) } }.
Proof.
  apply lookup_lt_Some in Hline.
  enough (length lines' ≤ length lines)%nat by lia.
  assert (∀ l l', list_remove line l = Ok l' → (length l' ≤ length l)%nat)
    as Hrm.
  { intros l. induction l as [|y l IH]; intros l'; simpl; [done|].
    destruct (String.eqb y line); [intros [= ->]; lia|].
    destruct (list_remove line l) as [l''|]; simpl; [|done].
    intros [= <-]; simpl. specialize (IH l'' eq_refl). lia. }
  unfold remove_body in Hbody.
  destruct (String.eqb line str_nl); [by apply Hrm|].
  destruct (str_getitem line 0) as [c|]; simpl in Hbody; [|done].
  destruct (String.eqb c str_bracket); [by apply Hrm|].
  by injection Hbody as ->.
Qed.

(** *** [read]: the remaining steps *)

(** [for i in range(self.strings): self.tab_roots.append(tab[i][0])] *)
Definition read_roots (lines : list string) : M Tab unit :=
  n ←$ gets strings;
  mfor (py_range n) (λ i,
    line ←$ lift (list_getitem lines i);
    c ←$ lift (str_getitem line 0);
    modify (append_root c)).

(** [for i in range(len(tab)): tab[i] = tab[i][2:-1]] *)
Definition read_trim (lines : list string) : outcome (list string) :=
  ofold (λ i ls,
      line ←? list_getitem ls i;
      list_setitem ls i (str_slice line 2 (-1)))
    (py_range (Z.of_nat (length lines))) lines.

(** [[s.replace("|", "") for s in tab]] *)
Definition read_pipes (lines : list string) : list string :=
  str_replace pipe "" <$> lines.

(** The last loop: for every [i] in [range(self.strings)] the group
    ["".join(tab[j] for j in range(i, len(tab), self.strings))] is
    appended to [result]. *)
Definition read_groups (n : Z) (lines : list string) : outcome (list string) :=
  ofold (λ i result,
      js ←? py_range3 i (Z.of_nat (length lines)) n;
      parts ←? omap (list_getitem lines) js;
      Ok (result ++ [str_join "" parts]))
    (py_range n) [].

(** [Tab.read(self, file)], on the text of the file. *)
Definition read_body (text : string) : M Tab (list string) :=
  let lines := readlines text in
  lines ←$ lift (remove_loop lines 0);
  do read_roots lines;
  lines ←$ lift (read_trim lines);
  let lines := read_pipes lines in
  n ←$ gets strings;
  result ←$ lift (read_groups n lines);
  do modify (set_tab result);
  gets tab.

Definition read (self : Tab) (text : string) : Tab * outcome (list string) :=
  read_body text self.

(** [Tab.print(self)]: the state is the list of the lines printed. *)
Definition print_body (self : Tab) : M (list string) unit :=
  mfor (py_range (Z.of_nat (length (tab self)))) (λ i,
    root ←$ lift (list_getitem (tab_roots self) i);
    seq_i ←$ lift (list_getitem (tab self) i);
    modify (λ out, out ++ [root +:+ str_pipe +:+ seq_i])).

Definition print (self : Tab) : list string * outcome unit :=
  print_body self [].

(** ** Callers *)

(** Several calls of [read] on one object, whatever their outcomes: the
    object after the last call and the outcome of every call. *)
Fixpoint read_calls (self : Tab) (texts : list string)
  : Tab * list (outcome (list string)) :=
  match texts with
  | [] => (self, [])
  | text :: texts' =>
      let '(self', r) := read self text in
      let '(self'', rs) := read_calls self' texts' in
      (self'', r :: rs)
  end.

(** * The steps as the specification words them

    The definitions of this part follow the text of the specification,
    not the source; the theorems compare them with [read]. *)

(** What the specification calls a blank line, a header and a usable
    line. *)
Definition is_blank (line : string) : bool := String.eqb line str_nl.

Definition is_header (line : string) : bool :=
  match line with
  | EmptyString => false
  | String c _ => Ascii.eqb c bracket
  end.

Definition usable (line : string) : bool :=
  negb (is_blank line || is_header line).

(** The filter of the specification: the usable lines, in order. *)
Definition usable_lines (lines : list string) : list string :=
  List.filter usable lines.

(** [s] without its first [n] characters. *)
Fixpoint str_drop (n : nat) (s : string) : string :=
  match n, s with
  | O, _ => s
  | S _, EmptyString => EmptyString
  | S n', String _ s' => str_drop n' s'
  end.

(** [s] without its trailing line terminator, when it has one. *)
Fixpoint strip_newline (s : string) : string :=
  match s with
  | EmptyString => EmptyString
  | String c EmptyString =>
      if Ascii.eqb c newline then EmptyString else s
  | String c s' => String c (strip_newline s')
  end.

(** Content trimming: "drop the first two characters and drop the
    trailing line-terminator character". *)
Definition spec_trim (line : string) : string :=
  strip_newline (str_drop 2 line).

(** Trimming followed by bar-separator removal. *)
Definition spec_content (line : string) : string :=
  str_replace pipe "" (spec_trim line).

(** The lines of [lines] at the positions [j] with [j mod n = i], in
    ascending order of position. *)
Definition lines_at (i n : Z) (lines : list string) : list string :=
  snd <$> List.filter (λ p, Z.eqb (p.1 `mod` n) i)
            (zip (Z.of_nat <$> seq 0 (length lines)) lines).

(** Interleave by string, over the usable lines of the text. *)
Definition spec_sequences (n : Z) (text : string) : list string :=
  (λ i, str_join "" (spec_content <$> lines_at i n (usable_lines (readlines text))))
    <$> py_range n.

(** ["|" in s] *)
Fixpoint str_contains (c : ascii) (s : string) : bool :=
  match s with
  | EmptyString => false
  | String c' s' => Ascii.eqb c' c || str_contains c s'
  end.

(** * The steps of [read] in closed form

    The functions the loops of [read] compute, used to state what the
    loops do. *)

(** The first character, as [line[0]] gives it on a line that has one. *)
Definition str_head (line : string) : string :=
  match line with
  | EmptyString => EmptyString
  | String c _ => String c EmptyString
  end.

(** [self] after [roots] have been appended to [self.tab_roots]. *)
Definition append_roots (roots : list string) (self : Tab) : Tab :=
  {| symbols := symbols self;
     notes_sharps := notes_sharps self;
     notes_flat := notes_flat self;
     tab := tab self;
     tab_roots := tab_roots self ++ roots;
     divisions := divisions self;
     timesignature := timesignature self;
     strings := strings self |}.

(** The slice the loop stores back: [line[2:-1]]. *)
Definition trim (line : string) : string := str_slice line 2 (-1).

(** The content of a line, as the decoder computes it. *)
Definition content (line : string) : string := str_replace pipe "" (trim line).

(** The positions [j] of [0 .. len-1] with [j mod n = i], ascending. *)
Definition positions (i n : Z) (len : nat) : list Z :=
  List.filter (λ j, Z.eqb (j `mod` n) i) (Z.of_nat <$> seq 0 len).

(** The sequence of string [i]: the joined lines at its positions. *)
Definition group (i n : Z) (lines : list string) : string :=
  str_join "" (lines_at i n lines).

(** What the removal loop leaves of the lines of a text. *)
Definition read_filter (text : string) : outcome (list string) :=
  remove_loop (readlines text) 0.

(** The sequences [read] builds from the lines the loop left. *)
Definition sequences (n : Z) (kept : list string) : list string :=
  (λ i, group i n (content <$> kept)) <$> py_range n.

(** The line [print] writes for a root and a sequence. *)
Definition display (root seq_i : string) : string :=
  root +:+ str_pipe +:+ seq_i.

(** Every field but the two caches. *)
Definition config (self : Tab)
  : list string * list string * list string * Z * string * Z :=
  (symbols self, notes_sharps self, notes_flat self,
   divisions self, timesignature self, strings self).

(** * Sample inputs *)

(** A line of text followed by its terminator. *)
Definition ln (s : string) : string := s +:+ str_nl.

(** The example of the specification: a header, a block of two lines, a
    blank line and a second block. *)
Definition sample : string :=
  ln "[Intro]" +:+ ln "E|0--2--|" +:+ ln "B|--3----|" +:+ ln "" +:+
  ln "E|1------|" +:+ ln "B|---4---|".

(** Two blank lines in a row before one tab line. *)
Definition two_blank_lines : string := ln "" +:+ ln "" +:+ ln "E|0".

(** Two headers in a row before one tab line. *)
Definition two_headers : string := ln "[A]" +:+ ln "[B]" +:+ ln "E|0".

(** One tab line in a file that does not end with a newline. *)
Definition no_final_newline : string := "E|0-2".

(** One block of two tab lines in a file that does not end with a
    newline. *)
Definition two_lines_no_final_newline : string := ln "E|0-2" +:+ "B|3-4".

(** * The program [main.py] and further notions *)

(** What [main] writes: the value handed to [pprint], and the lines
    handed to [print]. *)
Inductive event : Type :=
| PPrint (value : list string)
| PrintLine (line : string).

(** [main()], on the text of the file [samples/small.txt]: a decoder for
    six strings reads the file, the result is pretty-printed and the
    decoder prints its lines. An exception of [read] ends [main] before
    anything is written. *)
Definition main (text : string) : list event * outcome unit :=
  let tab := init 16 "4/3" 6 in
  match read tab text with
  | (tab, Ok result) =>
      let '(lines, o) := print tab in
      (PPrint result :: (PrintLine <$> lines), o)
  | (_, Raise e) => ([], Raise e)
  end.

(** Some line the loop is to remove is directly followed by another
    one. *)
Fixpoint adjacent_removable (lines : list string) : bool :=
  match lines with
  | a :: (b :: _) as rest =>
      (negb (usable a) && negb (usable b)) || adjacent_removable rest
  | _ => false
  end.

(** [s] without its last character. *)
Fixpoint str_init (s : string) : string :=
  match s with
  | EmptyString => EmptyString
  | String c EmptyString => EmptyString
  | String c s' => String c (str_init s')
  end.

(** * Properties *)

(** ** The removal loop *)

Lemma list_remove_length x l l' :
  list_remove x l = Ok l' → S (length l') = length l.
Proof.
  revert l'; induction l as [|y l IH]; intros l'; simpl; [done|].
  destruct (String.eqb y x); [by intros [= ->]|].
  destruct (list_remove x l) as [l''|]; simpl; [|done].
  intros [= <-]; simpl. by rewrite (IH l'').
Qed.

(** The loop as the equation of [while idx < len(tab)]. *)
Lemma remove_loop_step lines idx :
  remove_loop lines idx =
  match lines !! idx with
  | None => Ok lines
  | Some line =>
      match remove_body line lines with
      | Ok lines' => remove_loop lines' (S idx)
      | Raise e => Raise e
      end
  end.
Proof.
  funelim (remove_loop lines idx);
    repeat match goal with
      | E : ?x = _ |- context [match ?x with _ => _ end] => rewrite E
      end; reflexivity.
Qed.

Lemma str_getitem_0 line :
  line ≠ EmptyString → str_getitem line 0 = Ok (str_head line).
Proof.
  destruct line as [|c rest]; [done|]. intros _.
  unfold str_getitem, norm_index, str_len; simpl String.length.
  rewrite bool_decide_eq_true_2 by lia. reflexivity.
Qed.

Lemma str_getitem_0_empty : str_getitem EmptyString 0 = Raise IndexError.
Proof. reflexivity. Qed.

Lemma str_head_bracket line :
  String.eqb (str_head line) str_bracket = is_header line.
Proof.
  destruct line as [|c rest]; [done|]. simpl.
  by destruct (Ascii.eqb c bracket).
Qed.

Lemma remove_body_nonempty line lines :
  line ≠ EmptyString →
  remove_body line lines =
  if usable line then Ok lines else list_remove line lines.
Proof.
  intros Hne. unfold remove_body, usable, is_blank.
  destruct (String.eqb line str_nl); [done|].
  rewrite str_getitem_0 by done. simpl.
  rewrite str_head_bracket. by destruct (is_header line).
Qed.

Lemma list_remove_elem x l :
  x ∈ l →
  ∃ l', list_remove x l = Ok l' ∧ l' ⊆ l ∧
        ∀ P : string → bool, P x = false → List.filter P l' = List.filter P l.
Proof.
  induction l as [|y l IH]; [by intros ?%elem_of_nil|].
  intros Hin. simpl.
  destruct (String.eqb y x) eqn:Heq.
  - apply String.eqb_eq in Heq as ->. exists l. split; [done|]. split.
    + intros z Hz. apply elem_of_cons. by right.
    + intros P HP. simpl. by rewrite HP.
  - apply String.eqb_neq in Heq.
    apply elem_of_cons in Hin as [->|Hin]; [done|].
    destruct (IH Hin) as (l' & -> & Hsub & Hfil). simpl.
    exists (y :: l'). split; [done|]. split.
    + intros z [->|Hz]%elem_of_cons; apply elem_of_cons; [by left|].
      right. by apply Hsub.
    + intros P HP. simpl. by rewrite (Hfil P HP).
Qed.

Lemma elem_nonempty lines idx (line : string) :
  Forall (λ l, l ≠ EmptyString) lines →
  lines !! idx = Some line → line ≠ EmptyString.
Proof.
  rewrite Forall_forall. intros Hne Hl. apply Hne.
  by eapply list_elem_of_lookup_2.
Qed.

(** On lines as [readlines] gives them (none is empty) the loop ends
    without an exception; what it leaves comes from the input, and it
    has dropped no usable line and has kept them in order. *)
Lemma remove_loop_total lines idx :
  Forall (λ l, l ≠ EmptyString) lines →
  ∃ kept, remove_loop lines idx = Ok kept ∧ kept ⊆ lines ∧
          usable_lines kept = usable_lines lines.
Proof.
  remember (length lines - idx)%nat as m eqn:Hm.
  revert lines idx Hm.
  induction (lt_wf m) as [m _ IH]; intros lines idx -> Hne.
  rewrite remove_loop_step.
  destruct (lines !! idx) as [line|] eqn:Hline; [|by exists lines].
  pose proof (lookup_lt_Some _ _ _ Hline) as Hlt.
  rewrite remove_body_nonempty by (by eapply elem_nonempty).
  destruct (usable line) eqn:Hu.
  - apply (IH (length lines - S idx)%nat); [lia|done|done].
  - destruct (list_remove_elem line lines) as (l' & Hrm & Hsub & Hfil).
    { by eapply list_elem_of_lookup_2. }
    rewrite Hrm. apply list_remove_length in Hrm.
    destruct (IH (length l' - S idx)%nat) with (lines := l') (idx := S idx)
      as (kept & Hk & Hks & Hku); [lia|done| |].
    { rewrite Forall_forall in *. intros x Hx. apply Hne. by apply Hsub. }
    exists kept. split; [done|]. split.
    { intros z Hz. by apply Hsub, Hks. }
    unfold usable_lines in *. rewrite Hku. by apply Hfil.
Qed.

(** Where nothing is to be removed from [idx] on, the loop changes
    nothing. *)
Lemma remove_loop_usable lines idx :
  Forall (λ l, l ≠ EmptyString) lines →
  Forall (λ l, usable l = true) (drop idx lines) →
  remove_loop lines idx = Ok lines.
Proof.
  remember (length lines - idx)%nat as m eqn:Hm.
  revert idx Hm.
  induction (lt_wf m) as [m _ IH]; intros idx -> Hne Hus.
  rewrite remove_loop_step.
  destruct (lines !! idx) as [line|] eqn:Hline; [|done].
  pose proof (lookup_lt_Some _ _ _ Hline) as Hlt.
  rewrite remove_body_nonempty by (by eapply elem_nonempty).
  rewrite (drop_S lines line idx Hline) in Hus.
  apply Forall_cons in Hus as [Hu Hus].
  rewrite Hu. apply (IH (length lines - S idx)%nat); [lia|done|done|done].
Qed.

Lemma readlines_nonempty text :
  Forall (λ l, l ≠ EmptyString) (readlines text).
Proof.
  induction text as [|c rest IH]; simpl; [constructor|].
  destruct (Ascii.eqb c newline).
  - by constructor.
  - destruct (readlines rest) as [|line lines].
    + by repeat constructor.
    + apply Forall_cons in IH as [_ IH]. by constructor.
Qed.

(** ** Indexing with an index taken from a range *)

Lemma norm_index_nat len (n : nat) :
  norm_index len (Z.of_nat n) =
  if bool_decide (Z.of_nat n < len) then Ok n else Raise IndexError.
Proof.
  unfold norm_index.
  destruct (decide (Z.of_nat n < len)) as [Hlt|Hge].
  - rewrite !bool_decide_eq_true_2 by lia. by rewrite Nat2Z.id.
  - rewrite !bool_decide_eq_false_2 by lia. done.
Qed.

Lemma list_getitem_nat {A} (l : list A) (n : nat) :
  list_getitem l (Z.of_nat n) =
  match l !! n with
  | Some x => Ok x
  | None => Raise IndexError
  end.
Proof.
  unfold list_getitem. rewrite norm_index_nat.
  destruct (decide (n < length l)%nat) as [Hlt|Hge].
  - by rewrite bool_decide_eq_true_2 by lia.
  - rewrite bool_decide_eq_false_2 by lia.
    by rewrite lookup_ge_None_2 by lia.
Qed.

Lemma list_setitem_nat {A} (l : list A) (n : nat) (x : A) :
  (n < length l)%nat → list_setitem l (Z.of_nat n) x = Ok (<[n := x]> l).
Proof.
  intros Hlt. unfold list_setitem. rewrite norm_index_nat.
  by rewrite bool_decide_eq_true_2 by lia.
Qed.

Lemma py_range_nat (n : nat) : py_range (Z.of_nat n) = Z.of_nat <$> seq 0 n.
Proof. unfold py_range. by rewrite Nat2Z.id. Qed.

(** ** Root extraction *)

Lemma append_roots_nil self : append_roots [] self = self.
Proof. destruct self. unfold append_roots; simpl. by rewrite app_nil_r. Qed.

Lemma append_roots_cons c roots self :
  append_roots roots (append_root c self) = append_roots (c :: roots) self.
Proof.
  destruct self. unfold append_roots, append_root; simpl.
  by rewrite <- app_assoc.
Qed.

Lemma roots_loop lines k : ∀ a self,
  Forall (λ l, l ≠ EmptyString) lines →
  (a ≤ length lines)%nat →
  mfor (Z.of_nat <$> seq a k) (λ i,
    line ←$ lift (list_getitem lines i);
    c ←$ lift (str_getitem line 0);
    modify (append_root c)) self =
  if decide (a + k ≤ length lines)%nat
  then (append_roots (str_head <$> take k (drop a lines)) self, Ok tt)
  else (append_roots (str_head <$> drop a lines) self, Raise IndexError).
Proof.
  induction k as [|k IH]; intros a self Hne Ha.
  - simpl. rewrite decide_True by lia. by rewrite append_roots_nil.
  - cbn [seq fmap list_fmap mfor]. unfold sbind at 1. unfold sbind at 1.
    unfold lift at 1. rewrite list_getitem_nat.
    destruct (lines !! a) as [line|] eqn:Hline.
    + pose proof (lookup_lt_Some _ _ _ Hline) as Hlt.
      unfold sbind at 1. unfold lift at 1.
      rewrite str_getitem_0 by (by eapply elem_nonempty).
      unfold modify at 1.
      rewrite (IH (S a) _ Hne) by lia.
      rewrite (drop_S lines line a Hline).
      destruct (decide (S a + k ≤ length lines)%nat).
      * rewrite decide_True by lia. by rewrite append_roots_cons.
      * rewrite decide_False by lia. by rewrite append_roots_cons.
    + apply lookup_ge_None in Hline. rewrite decide_False by lia.
      rewrite drop_ge by lia. by rewrite append_roots_nil.
Qed.

Lemma read_roots_eq lines self :
  Forall (λ l, l ≠ EmptyString) lines →
  read_roots lines self =
  if decide (strings self ≤ Z.of_nat (length lines))
  then (append_roots (str_head <$> take (Z.to_nat (strings self)) lines) self,
        Ok tt)
  else (append_roots (str_head <$> lines) self, Raise IndexError).
Proof.
  intros Hne. unfold read_roots, sbind, gets, py_range.
  rewrite (roots_loop lines _ 0%nat self Hne) by lia.
  rewrite drop_0.
  destruct (decide (strings self ≤ Z.of_nat (length lines))).
  - by rewrite decide_True by lia.
  - by rewrite decide_False by lia.
Qed.

(** ** Content trimming and bar removal *)

Lemma trim_loop k : ∀ a (ls : list string),
  (a + k ≤ length ls)%nat →
  ofold (λ i ls,
      line ←? list_getitem ls i;
      list_setitem ls i (str_slice line 2 (-1)))
    (Z.of_nat <$> seq a k) ls =
  Ok (take a ls ++ (trim <$> take k (drop a ls)) ++ drop (a + k) ls).
Proof.
  induction k as [|k IH]; intros a ls Hlen.
  - simpl. by rewrite Nat.add_0_r, take_drop.
  - cbn [seq fmap list_fmap ofold]. rewrite list_getitem_nat.
    destruct (lookup_lt_is_Some_2 ls a) as [x Hx]; [lia|].
    rewrite Hx. cbn [obind].
    rewrite list_setitem_nat by lia. cbn [obind].
    rewrite (IH (S a)) by (rewrite length_insert; lia).
    f_equal.
    rewrite (take_S_r _ a (trim x))
      by (apply list_lookup_insert_eq; lia).
    rewrite take_insert_ge by lia.
    rewrite !drop_insert_lt by lia.
    rewrite (drop_S ls x a Hx). cbn [take fmap list_fmap].
    rewrite <- app_assoc. simpl.
    by replace (a + S k)%nat with (S (a + k)) by lia.
Qed.

(** The trimming loop raises nothing and trims every line. *)
Lemma read_trim_eq lines : read_trim lines = Ok (trim <$> lines).
Proof.
  unfold read_trim. rewrite py_range_nat.
  rewrite (trim_loop (length lines) 0) by lia.
  rewrite take_0, drop_0, take_ge, drop_ge by lia.
  simpl. by rewrite app_nil_r.
Qed.

Lemma read_pipes_trim lines : read_pipes (trim <$> lines) = content <$> lines.
Proof. unfold read_pipes. by rewrite <- list_fmap_compose. Qed.

(** ** Interleaving *)

Lemma stride_count_step (i n len : Z) :
  0 ≤ i < n → 0 ≤ len →
  let c := (len - i + n - 1) `div` n in
  0 ≤ c ∧
  (len `mod` n = i → (len + 1 - i + n - 1) `div` n = c + 1 ∧ i + c * n = len) ∧
  (len `mod` n ≠ i → (len + 1 - i + n - 1) `div` n = c).
Proof.
  intros Hi Hlen c. subst c.
  pose proof (Z.div_mod len n ltac:(lia)) as Hdm.
  pose proof (Z.mod_pos_bound len n ltac:(lia)) as Hmb.
  pose proof (Z.div_pos len n ltac:(lia) ltac:(lia)) as Hq.
  set (q := len `div` n) in *. set (r := len `mod` n) in *.
  split; [apply Z.div_pos; lia|]. split.
  - intros ->.
    assert ((len - i + n - 1) `div` n = q) as ->.
    { symmetry. apply (Z.div_unique _ _ q (n - 1)); lia. }
    split; [|lia].
    symmetry. apply (Z.div_unique _ _ (q + 1) 0); lia.
  - intros Hne.
    destruct (decide (i < r)) as [Hlt|Hge].
    + assert ((len - i + n - 1) `div` n = q + 1) as ->.
      { symmetry. apply (Z.div_unique _ _ (q + 1) (r - i - 1)); lia. }
      symmetry. apply (Z.div_unique _ _ (q + 1) (r - i)); lia.
    + assert ((len - i + n - 1) `div` n = q) as ->.
      { symmetry. apply (Z.div_unique _ _ q (r - i + n - 1)); lia. }
      symmetry. apply (Z.div_unique _ _ q (r - i + n)); lia.
Qed.

(** [range(i, len, n)] visits exactly the positions congruent to [i]. *)
Lemma py_range3_positions (i n : Z) (len : nat) :
  0 ≤ i < n →
  py_range3 i (Z.of_nat len) n = Ok (positions i n len).
Proof.
  intros Hi. unfold py_range3.
  rewrite bool_decide_eq_false_2 by lia.
  rewrite bool_decide_eq_true_2 by lia. f_equal.
  unfold positions.
  induction len as [|len IH].
  - simpl.
    replace ((Z.of_nat 0 - i + n - 1) `div` n) with 0; [done|].
    symmetry. apply Z.div_small. lia.
  - rewrite seq_S, fmap_app, List.filter_app. cbn [fmap list_fmap List.filter].
    rewrite Nat.add_0_l, <- IH. clear IH.
    destruct (stride_count_step i n (Z.of_nat len) Hi ltac:(lia))
      as (Hc & Heq & Hne).
    replace (Z.of_nat (S len)) with (Z.of_nat len + 1) by lia.
    destruct (decide (Z.of_nat len `mod` n = i)) as [Hm|Hm].
    + destruct (Heq Hm) as [-> Hlast].
      rewrite Z2Nat.inj_add by lia.
      change (Z.to_nat 1) with 1%nat. rewrite Nat.add_1_r.
      rewrite seq_S, fmap_app. cbn [fmap list_fmap]. simpl plus.
      rewrite Z2Nat.id by lia. rewrite Hlast.
      by rewrite (proj2 (Z.eqb_eq _ _) Hm).
    + rewrite (Hne Hm). rewrite (proj2 (Z.eqb_neq _ _) Hm).
      by rewrite app_nil_r.
Qed.

Lemma omap_getitem_filter (P : Z → bool) (rest : list string) : ∀ pre,
  omap (list_getitem (pre ++ rest))
    (List.filter P (Z.of_nat <$> seq (length pre) (length rest))) =
  Ok (snd <$> List.filter (λ p, P p.1)
        (zip (Z.of_nat <$> seq (length pre) (length rest)) rest)).
Proof.
  induction rest as [|x rest IH]; intros pre; [done|].
  cbn [length seq fmap list_fmap List.filter zip zip_with fst].
  specialize (IH (pre ++ [x])).
  rewrite <- app_assoc, length_app in IH. cbn [app length] in IH.
  rewrite Nat.add_1_r in IH.
  destruct (P (Z.of_nat (length pre))).
  - cbn [omap]. rewrite list_getitem_nat.
    rewrite list_lookup_middle by done. cbn [obind].
    rewrite IH. done.
  - apply IH.
Qed.

Lemma omap_positions (i n : Z) (lines : list string) :
  omap (list_getitem lines) (positions i n (length lines)) =
  Ok (lines_at i n lines).
Proof. apply (omap_getitem_filter (λ j, Z.eqb (j `mod` n) i) lines []). Qed.

Lemma ofold_snoc {A B} (body : A → list B → outcome (list B)) (h : A → B) xs :
  (∀ x acc, x ∈ xs → body x acc = Ok (acc ++ [h x])) →
  ∀ acc, ofold body xs acc = Ok (acc ++ (h <$> xs)).
Proof.
  induction xs as [|x xs IH]; intros Hbody acc.
  - simpl. by rewrite app_nil_r.
  - simpl. rewrite Hbody by apply list_elem_of_here. simpl.
    rewrite IH.
    + by rewrite <- app_assoc.
    + intros y acc' Hy. apply Hbody. by apply list_elem_of_further.
Qed.

Lemma elem_of_py_range i n : i ∈ py_range n → 0 ≤ i < n.
Proof.
  unfold py_range. intros (k & -> & Hk)%list_elem_of_fmap.
  apply elem_of_seq in Hk. lia.
Qed.

(** The last loop raises nothing: every step of the range is positive
    and every index it yields is inside the list. *)
Lemma read_groups_eq n lines :
  read_groups n lines = Ok ((λ i, group i n lines) <$> py_range n).
Proof.
  unfold read_groups.
  rewrite (ofold_snoc _ (λ i, group i n lines)); [done|].
  intros i acc Hi%elem_of_py_range.
  rewrite py_range3_positions by done. cbn [obind].
  by rewrite omap_positions.
Qed.

(** ** The whole of [read] *)

Lemma read_filter_total text :
  ∃ kept, read_filter text = Ok kept ∧
          Forall (λ l, l ≠ EmptyString) kept ∧
          usable_lines kept = usable_lines (readlines text).
Proof.
  destruct (remove_loop_total (readlines text) 0 (readlines_nonempty text))
    as (kept & Hk & Hsub & Hus).
  exists kept. split; [done|]. split; [|done].
  pose proof (readlines_nonempty text) as Hne.
  rewrite Forall_forall in *. intros x Hx. by apply Hne, Hsub.
Qed.

(** [read] in closed form: with enough lines it appends the first
    characters of the first [strings] lines to the cached roots, stores
    the sequences and returns them; with too few it raises [IndexError]
    after it has appended a root for every line there is. *)
Lemma read_eq self text kept :
  read_filter text = Ok kept →
  read self text =
  if decide (strings self ≤ Z.of_nat (length kept))
  then
    (set_tab (sequences (strings self) kept)
       (append_roots
          (str_head <$> take (Z.to_nat (strings self)) kept) self),
     Ok (sequences (strings self) kept))
  else (append_roots (str_head <$> kept) self, Raise IndexError).
Proof.
  intros Hk.
  destruct (read_filter_total text) as (kept' & Hk' & Hne & _).
  assert (kept' = kept) as -> by congruence. clear Hk'.
  unfold read, read_body. unfold read_filter in Hk. rewrite Hk.
  unfold sbind at 1. unfold lift at 1.
  unfold sbind at 1. rewrite read_roots_eq by done.
  destruct (decide (strings self ≤ Z.of_nat (length kept))); [|done].
  unfold sbind at 1. unfold lift at 1. rewrite read_trim_eq.
  unfold sbind at 1. unfold gets at 1.
  unfold sbind at 1. unfold lift at 1.
  rewrite read_pipes_trim, read_groups_eq.
  reflexivity.
Qed.

(** ** [print] *)

Lemma print_loop self k : ∀ a out,
  (a + k ≤ length (tab self))%nat →
  (a + k ≤ length (tab_roots self))%nat →
  mfor (Z.of_nat <$> seq a k) (λ i,
    root ←$ lift (list_getitem (tab_roots self) i);
    seq_i ←$ lift (list_getitem (tab self) i);
    modify (λ out, out ++ [root +:+ str_pipe +:+ seq_i])) out =
  (out ++ zip_with display (take k (drop a (tab_roots self)))
                           (take k (drop a (tab self))), Ok tt).
Proof.
  induction k as [|k IH]; intros a out Ht Hr.
  - simpl. by rewrite app_nil_r.
  - cbn [seq fmap list_fmap mfor].
    destruct (lookup_lt_is_Some_2 (tab_roots self) a) as [r Hr']; [lia|].
    destruct (lookup_lt_is_Some_2 (tab self) a) as [s Hs']; [lia|].
    unfold sbind at 1. unfold sbind at 1. unfold lift at 1.
    rewrite list_getitem_nat, Hr'.
    unfold sbind at 1. unfold lift at 1.
    rewrite list_getitem_nat, Hs'.
    unfold modify at 1.
    rewrite (IH (S a)) by lia.
    rewrite (drop_S _ r a Hr'), (drop_S _ s a Hs').
    cbn [take zip_with]. by rewrite <- app_assoc.
Qed.

(** With a root for every sequence, [print] raises nothing and writes
    one line for every sequence. *)
Lemma print_eq self :
  (length (tab self) ≤ length (tab_roots self))%nat →
  print self = (zip_with display (tab_roots self) (tab self), Ok tt).
Proof.
  intros Hlen. unfold print, print_body. rewrite py_range_nat.
  rewrite (print_loop self _ 0 []) by lia.
  rewrite !drop_0. rewrite (take_ge (tab self)) by lia.
  simpl. f_equal.
  apply list_eq. intros i. rewrite !lookup_zip_with.
  destruct (decide (i < length (tab self))%nat).
  - by rewrite lookup_take_lt by done.
  - rewrite (lookup_ge_None_2 (tab self)) by lia.
    by destruct (_ !! i), (_ !! i).
Qed.

(** ** Strings *)

Lemma strip_newline_ln body : strip_newline (body +:+ str_nl) = body.
Proof.
  induction body as [|c body IH]; [done|].
  destruct body as [|c' body]; [done|].
  change (String c (strip_newline (String c' body +:+ str_nl)) =
          String c (String c' body)).
  by rewrite IH.
Qed.

Lemma substring_0_app (x y : string) :
  String.substring 0 (String.length x) (x +:+ y) = x.
Proof.
  induction x as [|c x IH]; simpl.
  - by destruct y.
  - by rewrite IH.
Qed.

Lemma append_length (x y : string) :
  String.length (x +:+ y) = (String.length x + String.length y)%nat.
Proof. induction x as [|c x IH]; simpl; [done|by rewrite IH]. Qed.

(** On a line that ends with its terminator the slice [line[2:-1]] is
    the trimming of the specification: the text of the line without its
    first two characters. *)
Lemma trim_ln body :
  trim (ln body) = spec_trim (ln body) ∧ trim (ln body) = str_drop 2 body.
Proof.
  destruct body as [|c1 [|c2 body]]; [done|done|].
  assert (trim (ln (String c1 (String c2 body))) = body) as ->.
  { unfold trim, str_slice, str_len, ln, slice_bound.
    cbn [String.append String.length]. rewrite append_length.
    cbn [String.length].
    rewrite bool_decide_eq_false_2 by lia.
    rewrite bool_decide_eq_true_2 by lia.
    rewrite Z.min_r, Z.max_r by lia.
    rewrite Z.min_r, Z.max_r by lia.
    change (Z.to_nat 2) with 2%nat.
    change (String.length str_nl) with 1%nat.
    cbn [String.append String.substring].
    replace (Z.to_nat _) with (String.length body) by lia.
    apply substring_0_app. }
  split; [|done].
  change (spec_trim (ln (String c1 (String c2 body))))
    with (strip_newline (body +:+ str_nl)).
  by rewrite strip_newline_ln.
Qed.

Lemma str_replace_idem c s :
  str_replace c "" (str_replace c "" s) = str_replace c "" s.
Proof.
  induction s as [|a s IH]; [done|]. simpl.
  destruct (Ascii.eqb a c) eqn:E; simpl; [done|].
  by rewrite E, IH.
Qed.

Lemma str_contains_replace c s : str_contains c (str_replace c "" s) = false.
Proof.
  induction s as [|a s IH]; [done|]. simpl.
  destruct (Ascii.eqb a c) eqn:E; simpl; [done|].
  by rewrite E, IH.
Qed.

Lemma str_contains_app c x y :
  str_contains c (x +:+ y) = str_contains c x || str_contains c y.
Proof.
  induction x as [|a x IH]; [done|]. simpl.
  by rewrite IH, orb_assoc.
Qed.

Lemma append_empty_r (x : string) : x +:+ "" = x.
Proof.
  induction x as [|c x IH]; [done|].
  change (String c (x +:+ "") = String c x). by rewrite IH.
Qed.

(** Joining with the empty separator is plain concatenation. *)
Lemma str_join_empty parts :
  str_join "" parts = foldr String.append "" parts.
Proof.
  unfold str_join. induction parts as [|x parts IH]; [done|].
  destruct parts as [|y parts].
  - cbn [String.concat foldr]. by rewrite append_empty_r.
  - change (String.concat "" (x :: y :: parts))
      with (x +:+ "" +:+ String.concat "" (y :: parts)).
    by rewrite IH.
Qed.

Lemma str_contains_join c parts :
  Forall (λ s, str_contains c s = false) parts →
  str_contains c (str_join "" parts) = false.
Proof.
  rewrite str_join_empty. induction 1 as [|x parts Hx _ IH]; [done|].
  simpl. by rewrite str_contains_app, Hx, IH.
Qed.

(** ** Lines at the positions of one string *)

Lemma filter_zip_fmap {A B} (Q : Z → bool) (f : A → B) idxs : ∀ l : list A,
  snd <$> List.filter (λ p, Q p.1) (zip idxs (f <$> l)) =
  f <$> (snd <$> List.filter (λ p, Q p.1) (zip idxs l)).
Proof.
  induction idxs as [|j idxs IH]; intros [|x l]; try done.
  cbn [fmap list_fmap zip zip_with List.filter fst].
  destruct (Q j); cbn [fmap list_fmap snd]; by rewrite <- IH.
Qed.

Lemma lines_at_fmap (f : string → string) i n lines :
  lines_at i n (f <$> lines) = f <$> lines_at i n lines.
Proof.
  unfold lines_at. rewrite length_fmap.
  apply (filter_zip_fmap (λ j, Z.eqb (j `mod` n) i)).
Qed.

Lemma filter_zip_Forall {A} (P : A → Prop) (Q : Z → bool) idxs : ∀ l : list A,
  Forall P l → Forall P (snd <$> List.filter (λ p, Q p.1) (zip idxs l)).
Proof.
  induction idxs as [|j idxs IH]; intros l Hl; [by constructor|].
  destruct Hl as [|x l Hx Hl]; [by constructor|].
  cbn [zip zip_with List.filter fst].
  destruct (Q j); cbn [fmap list_fmap snd]; [constructor; [done|]|]; by apply IH.
Qed.

Lemma lines_at_Forall (P : string → Prop) i n lines :
  Forall P lines → Forall P (lines_at i n lines).
Proof.
  intros Hl. unfold lines_at.
  by apply (filter_zip_Forall P (λ j, Z.eqb (j `mod` n) i)).
Qed.

(** With exactly one block of [n] lines, string [i] has line [i] only. *)
Lemma lines_at_single_block (i : nat) lines line :
  lines !! i = Some line →
  lines_at (Z.of_nat i) (Z.of_nat (length lines)) lines = [line].
Proof.
  intros Hline. pose proof (lookup_lt_Some _ _ _ Hline) as Hlt.
  pose proof (omap_positions (Z.of_nat i) (Z.of_nat (length lines)) lines) as Hom.
  pose proof (py_range3_positions (Z.of_nat i) (Z.of_nat (length lines))
                (length lines) ltac:(lia)) as Hpos.
  unfold py_range3 in Hpos.
  rewrite bool_decide_eq_false_2, bool_decide_eq_true_2 in Hpos by lia.
  replace ((Z.of_nat (length lines) - Z.of_nat i + Z.of_nat (length lines) - 1)
             `div` Z.of_nat (length lines)) with 1 in Hpos.
  2:{ apply (Z.div_unique _ _ 1 (Z.of_nat (length lines) - Z.of_nat i - 1)); lia. }
  injection Hpos as Hpos. rewrite <- Hpos in Hom. simpl in Hom.
  rewrite Z.add_0_r, list_getitem_nat, Hline in Hom. simpl in Hom.
  by injection Hom as <-.
Qed.

(** ** The two ways [read] ends *)

Lemma read_ok self text self' result :
  read self text = (self', Ok result) →
  ∃ kept,
    read_filter text = Ok kept ∧
    strings self ≤ Z.of_nat (length kept) ∧
    result = sequences (strings self) kept ∧
    self' = set_tab result
              (append_roots
                 (str_head <$> take (Z.to_nat (strings self)) kept) self).
Proof.
  destruct (read_filter_total text) as (kept & Hk & _ & _).
  rewrite (read_eq self text kept Hk).
  destruct (decide (strings self ≤ Z.of_nat (length kept))); [|done].
  intros [= <- <-]. by exists kept.
Qed.

Lemma read_raise self text self' e :
  read self text = (self', Raise e) →
  e = IndexError ∧
  ∃ kept,
    read_filter text = Ok kept ∧
    Z.of_nat (length kept) < strings self ∧
    self' = append_roots (str_head <$> kept) self.
Proof.
  destruct (read_filter_total text) as (kept & Hk & _ & _).
  rewrite (read_eq self text kept Hk).
  destruct (decide (strings self ≤ Z.of_nat (length kept))); [done|].
  intros [= <- <-]. split; [done|]. exists kept. split; [done|]. split; [lia|done].
Qed.

(** The loop drops no usable line, so it leaves at least as many lines
    as the text has usable ones. *)
Lemma kept_at_least_usable text kept :
  read_filter text = Ok kept →
  (length (usable_lines (readlines text)) ≤ length kept)%nat.
Proof.
  intros Hk. destruct (read_filter_total text) as (kept' & Hk' & _ & Hus).
  assert (kept' = kept) as -> by congruence.
  rewrite <- Hus. apply List.filter_length_le.
Qed.

(** On a text without blank lines and headers the loop removes
    nothing. *)
Lemma read_filter_usable text :
  Forall (λ l, usable l = true) (readlines text) →
  read_filter text = Ok (readlines text).
Proof.
  intros Hus. apply remove_loop_usable; [apply readlines_nonempty|done].
Qed.

Lemma length_py_range n : length (py_range n) = Z.to_nat n.
Proof. unfold py_range. by rewrite length_fmap, length_seq. Qed.

Lemma lookup_py_range n (i : nat) :
  (i < Z.to_nat n)%nat → py_range n !! i = Some (Z.of_nat i).
Proof.
  intros Hi. unfold py_range. rewrite list_lookup_fmap.
  by rewrite lookup_seq_lt by done.
Qed.

Lemma lookup_sequences n kept (i : nat) :
  (i < Z.to_nat n)%nat →
  sequences n kept !! i = Some (group (Z.of_nat i) n (content <$> kept)).
Proof.
  intros Hi. unfold sequences.
  by rewrite list_lookup_fmap, lookup_py_range.
Qed.

(** Interleaving, over the lines the removal loop left: the sequence of
    string [i] is the concatenation, in ascending order of position, of
    the content of the lines at the positions [j] with [j mod n = i]. *)
Lemma read_interleave self text kept :
  read_filter text = Ok kept →
  strings self ≤ Z.of_nat (length kept) →
  ∃ self' result,
    read self text = (self', Ok result) ∧
    ∀ i : nat, Z.of_nat i < strings self →
      result !! i =
      Some (str_join "" (content <$> lines_at (Z.of_nat i) (strings self) kept)).
Proof.
  intros Hk Hn. rewrite (read_eq self text kept Hk).
  rewrite decide_True by done. eexists _, _. split; [done|].
  intros i Hi. rewrite lookup_sequences by lia.
  unfold group. by rewrite lines_at_fmap.
Qed.

(** With fewer lines left than strings, [read] raises [IndexError]. *)
Lemma read_insufficient self text kept :
  read_filter text = Ok kept →
  Z.of_nat (length kept) < strings self →
  (read self text).2 = Raise IndexError.
Proof.
  intros Hk Hn. rewrite (read_eq self text kept Hk).
  by rewrite decide_False by lia.
Qed.

(** Where the removal loop has left the usable lines and nothing else,
    and every one of them ends with its terminator, [read] returns the
    sequences of the specification. *)
Lemma read_matches_spec self text :
  read_filter text = Ok (usable_lines (readlines text)) →
  Forall (λ l, ∃ body, l = ln body) (usable_lines (readlines text)) →
  strings self ≤ Z.of_nat (length (usable_lines (readlines text))) →
  (read self text).2 = Ok (spec_sequences (strings self) text).
Proof.
  intros Hk Hln Hn. rewrite (read_eq self text _ Hk).
  rewrite decide_True by done. simpl. f_equal.
  unfold sequences, spec_sequences. apply list_fmap_ext. intros _ i _.
  unfold group. rewrite lines_at_fmap. f_equal.
  apply Forall_fmap_ext_1.
  eapply Forall_impl; [by apply lines_at_Forall|].
  intros line [body ->]. unfold content, spec_content.
  by destruct (trim_ln body) as [<- _].
Qed.

(** The example of the specification, with two strings. *)
Example read_sample :
  read (init 16 "4/3" 2) sample =
  (set_tab ["0--2--1------"; "--3-------4---"]
     (append_roots ["E"; "B"] (init 16 "4/3" 2)),
   Ok ["0--2--1------"; "--3-------4---"]) ∧
  print (read (init 16 "4/3" 2) sample).1 =
  (["E|0--2--1------"; "B|--3-------4---"], Ok tt).
Proof. split; reflexivity. Qed.

(** * The claims of the specification *)

(** ** Bar-separator removal *)

(** C8: bar-separator removal is idempotent. Removing every bar from a
    string from which every bar has been removed already changes
    nothing, for one string and for the whole list the decoder
    processes. *)
Theorem pipe_removal_idempotent :
  (∀ s, str_replace pipe "" (str_replace pipe "" s) = str_replace pipe "" s) ∧
  (∀ lines, read_pipes (read_pipes lines) = read_pipes lines).
Proof.
  split.
  - intros s. apply str_replace_idem.
  - intros lines. unfold read_pipes. rewrite <- list_fmap_compose.
    apply list_fmap_ext. intros _ s _. apply str_replace_idem.
Qed.

(** ** The notation tables and the configuration *)

Lemma read_config self text : config (read self text).1 = config self.
Proof.
  destruct (read_filter_total text) as (kept & Hk & _ & _).
  rewrite (read_eq self text kept Hk).
  by destruct (decide (strings self ≤ Z.of_nat (length kept))).
Qed.

Lemma read_calls_config texts : ∀ self,
  config (read_calls self texts).1 = config self.
Proof.
  induction texts as [|text texts IH]; intros self; [done|].
  simpl. pose proof (read_config self text) as Hc.
  destruct (read self text) as [self' r]. specialize (IH self').
  destruct (read_calls self' texts) as [self'' rs]. simpl in *. congruence.
Qed.

(** C9: [read] never modifies the notation tables [symbols],
    [notes_sharps], [notes_flat] nor the configuration fields
    [divisions], [timesignature], [strings]. After any calls of [read] on
    a decoder, whether they return or raise, each of these fields has the
    value the constructor gave it. *)
Theorem read_keeps_tables_and_config d ts n texts :
  let self := (read_calls (init d ts n) texts).1 in
  symbols self = ["/"; "\"; "~"; "h"; "p"; "b"] ∧
  notes_sharps self =
    ["C"; "C#"; "D"; "D#"; "E"; "F"; "F#"; "G"; "G#"; "A"; "A#"; "B"] ∧
  notes_flat self =
    ["C"; "Db"; "D"; "Eb"; "E"; "F"; "Gb"; "G"; "Ab"; "A"; "Bb"; "B"] ∧
  divisions self = d ∧
  timesignature self = ts ∧
  strings self = n.
Proof.
  intros self. pose proof (read_calls_config texts (init d ts n)) as Hc.
  fold self in Hc. unfold config in Hc. simpl in Hc.
  injection Hc as -> -> -> -> -> ->. done.
Qed.

(** ** Filtering *)

(** C4: the filtering step does not discard every blank line and every
    header. Of two blank lines in a row the loop removes the first and
    steps over the second, and likewise for two headers in a row, while
    the filter of the specification leaves the tab line only. *)
Theorem filter_skips_line_after_removal :
  read_filter two_blank_lines = Ok [ln ""; ln "E|0"] ∧
  read_filter two_headers = Ok [ln "[B]"; ln "E|0"] ∧
  usable_lines (readlines two_blank_lines) = [ln "E|0"] ∧
  usable_lines (readlines two_headers) = [ln "E|0"].
Proof. repeat split; reflexivity. Qed.

(** ** Content trimming *)

(** C5: on the last line of a file without a final newline the trimming
    step removes the last character of the content: the slice drops the
    last character whatever it is. The trimming of the specification
    keeps it. *)
Theorem trim_cuts_unterminated_line :
  readlines no_final_newline = ["E|0-2"] ∧
  read_trim ["E|0-2"] = Ok ["0-"] ∧
  spec_trim "E|0-2" = "0-2" ∧
  (read (init 16 "4/3" 1) no_final_newline).2 = Ok ["0-"].
Proof. repeat split; reflexivity. Qed.

(** ** Interleaving *)

(** C1: the sequences are interleaved from the lines the removal loop
    left, not from the usable lines of the text. After two headers in a
    row the second header is still in the list, so with one string the
    sequence starts with the rest of that header; the specification
    gives the content of the tab line alone. *)
Theorem interleave_takes_unremoved_header :
  1 ≤ Z.of_nat (length (usable_lines (readlines two_headers))) ∧
  (read (init 16 "4/3" 1) two_headers).2 = Ok ["]0"] ∧
  spec_sequences 1 two_headers = ["0"].
Proof. repeat split; reflexivity. Qed.

(** ** Too few lines *)

(** C2: a text with fewer usable lines than strings does not always make
    [read] raise. With two strings and one tab line after two blank
    lines, the blank line the loop stepped over counts as a line: [read]
    returns, with a newline as the first root. *)
Theorem blank_line_counts_as_line :
  Z.of_nat (length (usable_lines (readlines two_blank_lines))) = 1 ∧
  read (init 16 "4/3" 2) two_blank_lines =
    (set_tab [""; "0"] (append_roots [str_nl; "E"] (init 16 "4/3" 2)),
     Ok [""; "0"]).
Proof. split; reflexivity. Qed.

(** ** The shape of the result *)

Lemma content_no_pipe line : str_contains pipe (content line) = false.
Proof. apply str_contains_replace. Qed.

Lemma sequences_no_pipe n kept :
  Forall (λ s, str_contains pipe s = false) (sequences n kept).
Proof.
  unfold sequences. apply Forall_fmap, Forall_forall. intros i _.
  simpl. unfold group. apply str_contains_join, lines_at_Forall.
  apply Forall_fmap, Forall_forall. intros line _. apply content_no_pipe.
Qed.

Lemma length_sequences n kept : length (sequences n kept) = Z.to_nat n.
Proof. unfold sequences. by rewrite length_fmap, length_py_range. Qed.

(** C3: for every text with at least [n] usable lines, counted in the
    text or in what the filtering step left of it, [read] on a fresh
    decoder with [n] strings returns; the cached roots and the returned
    sequences both have length [n], and no sequence contains a bar. *)
Theorem read_result_shape d ts n text :
  0 ≤ n →
  n ≤ Z.of_nat (length (usable_lines (readlines text))) ∨
    (∃ kept, read_filter text = Ok kept ∧ n ≤ Z.of_nat (length kept)) →
  ∃ self' result,
    read (init d ts n) text = (self', Ok result) ∧
    Z.of_nat (length (tab_roots self')) = n ∧
    Z.of_nat (length result) = n ∧
    tab self' = result ∧
    Forall (λ s, str_contains pipe s = false) result.
Proof.
  intros Hn Hlines.
  destruct (read_filter_total text) as (kept & Hk & _ & _).
  assert (n ≤ Z.of_nat (length kept)) as Hlen.
  { destruct Hlines as [Hus|(kept' & Hk' & Hlen)].
    - pose proof (kept_at_least_usable text kept Hk). lia.
    - congruence. }
  rewrite (read_eq _ text kept Hk). simpl strings.
  rewrite decide_True by done. eexists _, _. split; [done|].
  simpl. rewrite length_fmap, length_take, length_sequences.
  repeat split; [lia|lia|apply sequences_no_pipe].
Qed.

Lemma read_result_shape_witness :
  ∃ self' result,
    read (init 16 "4/3" 2) sample = (self', Ok result) ∧
    Z.of_nat (length (tab_roots self')) = 2 ∧
    Z.of_nat (length result) = 2 ∧
    tab self' = result ∧
    Forall (λ s, str_contains pipe s = false) result.
Proof.
  apply (read_result_shape 16 "4/3" 2 sample).
  - lia.
  - left. apply Z.leb_le. reflexivity.
Defined.

(** ** One block *)

(** C6: with exactly as many lines as the decoder has strings, none of
    them blank or a header, the sequence of a string is not always the
    trimmed, bar-free content of its line. In a file of two tab lines
    that does not end with a newline, and with two strings, the sequence
    of the second string has lost the last character of its line: the
    slice drops the last character whatever it is, and the content of
    the specification keeps it. *)
Theorem single_block_cuts_last_character :
  Forall (λ l, usable l = true) (readlines two_lines_no_final_newline) ∧
  Z.of_nat (length (readlines two_lines_no_final_newline)) =
    strings (init 16 "4/3" 2) ∧
  read (init 16 "4/3" 2) two_lines_no_final_newline =
    (set_tab ["0-2"; "3-"] (append_roots ["E"; "B"] (init 16 "4/3" 2)),
     Ok ["0-2"; "3-"]) ∧
  spec_content <$> readlines two_lines_no_final_newline = ["0-2"; "3-4"].
Proof. repeat split; try reflexivity. vm_compute. repeat constructor. Qed.

(** ** Display *)

Lemma lookup_display roots seqs (i : nat) root seq_i :
  roots !! i = Some root → seqs !! i = Some seq_i →
  zip_with display roots seqs !! i = Some (root +:+ str_pipe +:+ seq_i).
Proof. intros Hr Hs. by rewrite lookup_zip_with, Hr; simpl; rewrite Hs. Qed.

Lemma read_ok_caches self text self' result :
  read self text = (self', Ok result) →
  ∃ roots,
    tab_roots self' = tab_roots self ++ roots ∧
    length roots = Z.to_nat (strings self) ∧
    tab self' = result ∧
    length result = Z.to_nat (strings self) ∧
    strings self' = strings self.
Proof.
  intros (kept & Hk & Hn & -> & ->)%read_ok.
  exists (str_head <$> take (Z.to_nat (strings self)) kept).
  simpl. rewrite length_fmap, length_take, length_sequences.
  repeat split; lia.
Qed.

(** C7: for every roots and sequences of equal length cached in the
    decoder, [print] writes one line for every sequence, and line [i] is
    [roots[i] + "|" + sequences[i]]. In particular, after [read] has
    returned, line [i] of what [print] writes is the cached root [i],
    a bar and sequence [i] of the result. *)
Theorem print_format :
  (∀ self roots seqs,
     tab_roots self = roots → tab self = seqs → length roots = length seqs →
     ∃ out,
       print self = (out, Ok tt) ∧
       length out = length seqs ∧
       ∀ (i : nat) root seq_i,
         roots !! i = Some root → seqs !! i = Some seq_i →
         out !! i = Some (root +:+ str_pipe +:+ seq_i)) ∧
  (∀ self text self' result,
     read self text = (self', Ok result) →
     ∃ out,
       print self' = (out, Ok tt) ∧
       length out = length result ∧
       ∀ (i : nat) seq_i,
         result !! i = Some seq_i →
         ∃ root,
           tab_roots self' !! i = Some root ∧
           out !! i = Some (root +:+ str_pipe +:+ seq_i)).
Proof.
  split.
  - intros self roots seqs <- <- Hlen.
    exists (zip_with display (tab_roots self) (tab self)).
    rewrite print_eq by lia. split; [done|].
    split; [by rewrite length_zip_with_r_eq|].
    apply lookup_display.
  - intros self text self' result Hread.
    destruct (read_ok_caches _ _ _ _ Hread) as (roots & Hr & Hlr & Ht & Hlt & _).
    assert (length (tab self') ≤ length (tab_roots self'))%nat as Hle.
    { rewrite Hr, Ht, length_app. lia. }
    exists (zip_with display (tab_roots self') (tab self')).
    rewrite print_eq by done. split; [done|].
    rewrite Ht in *.
    split; [rewrite length_zip_with_r; [done|lia]|].
    intros i seq_i Hs. pose proof (lookup_lt_Some _ _ _ Hs) as Hi.
    destruct (lookup_lt_is_Some_2 (tab_roots self') i) as [root Hroot]; [lia|].
    exists root. split; [done|]. by apply lookup_display.
Qed.

Lemma print_format_witness :
  (∃ out,
     print (set_tab ["0-2"; "-3-"] (append_roots ["E"; "B"] (init 16 "4/3" 2))) =
       (out, Ok tt) ∧
     length out = 2%nat ∧
     ∀ (i : nat) root seq_i,
       ["E"; "B"] !! i = Some root → ["0-2"; "-3-"] !! i = Some seq_i →
       out !! i = Some (root +:+ str_pipe +:+ seq_i)) ∧
  (∃ out,
     print (read (init 16 "4/3" 2) sample).1 = (out, Ok tt) ∧
     length out = 2%nat ∧
     ∀ (i : nat) seq_i,
       ["0--2--1------"; "--3-------4---"] !! i = Some seq_i →
       ∃ root,
         tab_roots (read (init 16 "4/3" 2) sample).1 !! i = Some root ∧
         out !! i = Some (root +:+ str_pipe +:+ seq_i)).
Proof.
  split.
  - apply (proj1 print_format
             (set_tab ["0-2"; "-3-"] (append_roots ["E"; "B"] (init 16 "4/3" 2)))
             ["E"; "B"] ["0-2"; "-3-"]); reflexivity.
  - apply (proj2 print_format (init 16 "4/3" 2) sample
             (read (init 16 "4/3" 2) sample).1
             ["0--2--1------"; "--3-------4---"]).
    reflexivity.
Defined.

(** ** The caches over several calls *)

Lemma zip_with_app_short {A B C} (f : A → B → C) (a b : list A) : ∀ c,
  (length c ≤ length a)%nat → zip_with f (a ++ b) c = zip_with f a c.
Proof.
  induction a as [|x a IH]; intros [|y c] Hlen; simpl in *; try done; try lia.
  - by destruct b.
  - f_equal. apply IH. lia.
Qed.

Lemma length_read_calls texts : ∀ self,
  length (read_calls self texts).2 = length texts.
Proof.
  induction texts as [|text texts IH]; intros self; [done|].
  simpl. destruct (read self text) as [self' r]. specialize (IH self').
  destruct (read_calls self' texts) as [self'' rs]. simpl in *. by rewrite IH.
Qed.

(** Calls that all return: every call appends as many roots as there are
    strings, and the cached sequences are those of the latest call. *)
Lemma read_calls_ok texts : ∀ self self_n results,
  read_calls self texts = (self_n, Ok <$> results) →
  strings self_n = strings self ∧
  (∃ added,
     tab_roots self_n = tab_roots self ++ added ∧
     length added = (length texts * Z.to_nat (strings self))%nat) ∧
  (texts ≠ [] →
   last results = Some (tab self_n) ∧
   length (tab self_n) = Z.to_nat (strings self)).
Proof.
  induction texts as [|text texts IH]; intros self self_n results.
  - simpl. intros [= <- Hres]. split; [done|]. split; [|done].
    exists []. by rewrite app_nil_r.
  - simpl. destruct (read self text) as [self' r] eqn:Hread.
    pose proof (length_read_calls texts self') as Hlen.
    destruct (read_calls self' texts) as [self'' rs] eqn:Hcalls.
    intros [= -> Hres].
    destruct results as [|r0 results]; [done|].
    simpl in Hres. injection Hres as -> ->.
    destruct (read_ok_caches _ _ _ _ Hread) as (roots & Hr & Hlr & Ht & Hlt & Hs).
    destruct (IH _ _ _ Hcalls) as (Hs' & (added & Ha & Hla) & Hlast).
    split; [congruence|]. split.
    + exists (roots ++ added). rewrite Ha, Hr, <- app_assoc. split; [done|].
      rewrite length_app, Hla, Hs. lia.
    + intros _. destruct texts as [|text' texts].
      * simpl in Hcalls. injection Hcalls as <- Hres.
        destruct results; [|done]. simpl. by rewrite Ht.
      * destruct Hlast as [Hlast Hlen']; [done|].
        rewrite Hs in Hlen'. split; [|done].
        destruct results as [|r1 results]; [done|]. done.
Qed.

(** C10: [read] appends [n] new roots to the cached roots and keeps the
    earlier ones, and replaces the cached sequences. After any calls of
    [read] on a fresh decoder that all returned, the cached roots have
    length [number of calls * n]; after at least one call the cached
    sequences are those of the latest call and have length [n], the
    roots of the first call are still the first [n] cached roots, and
    [print] pairs them with the sequences of the latest call. *)
Theorem roots_accumulate d ts n :
  0 ≤ n →
  (∀ self text self' result,
     strings self = n →
     read self text = (self', Ok result) →
     ∃ roots,
       Z.of_nat (length roots) = n ∧
       tab_roots self' = tab_roots self ++ roots ∧
       tab self' = result) ∧
  (∀ texts self_n results,
     read_calls (init d ts n) texts = (self_n, Ok <$> results) →
     Z.of_nat (length (tab_roots self_n)) = Z.of_nat (length texts) * n ∧
     ∀ text texts' self_1 result_1,
       texts = text :: texts' →
       read (init d ts n) text = (self_1, Ok result_1) →
       Z.of_nat (length (tab self_n)) = n ∧
       last results = Some (tab self_n) ∧
       take (Z.to_nat n) (tab_roots self_n) = tab_roots self_1 ∧
       print self_n = (zip_with display (tab_roots self_1) (tab self_n), Ok tt)).
Proof.
  intros Hn. split.
  - intros self text self' result <- Hread.
    destruct (read_ok_caches _ _ _ _ Hread) as (roots & Hr & Hlr & Ht & _).
    exists roots. repeat split; [lia|done|done].
  - intros texts self_n results Hcalls.
    destruct (read_calls_ok _ _ _ _ Hcalls) as (_ & (added & Ha & Hla) & Hlast).
    simpl in Ha, Hla. split; [rewrite Ha, Hla; lia|].
    intros text texts' self_1 result_1 -> Hread.
    destruct Hlast as [Hlast Hlen]; [done|]. simpl in Hlen.
    simpl in Hcalls. rewrite Hread in Hcalls.
    destruct (read_calls self_1 texts') as [self'' rs] eqn:Hcalls'.
    injection Hcalls as -> Hres.
    destruct results as [|r0 results]; [done|].
    simpl in Hres. injection Hres as _ ->.
    destruct (read_ok_caches _ _ _ _ Hread) as (roots & Hr & Hlr & _).
    destruct (read_calls_ok _ _ _ _ Hcalls') as (_ & (added' & Ha' & _) & _).
    simpl in Hr, Hlr.
    split; [lia|]. split; [done|].
    assert (length (tab_roots self_1) = Z.to_nat n) as Hl1 by by rewrite Hr.
    split.
    + rewrite Ha'. by apply take_app_length'.
    + rewrite print_eq by (rewrite Ha', length_app; lia).
      rewrite Ha'. by rewrite zip_with_app_short by lia.
Qed.

(** Two calls that return, on one decoder with two strings: the
    example of the specification, then one block of two other lines. *)
Lemma roots_accumulate_witness :
  (∃ roots,
     Z.of_nat (length roots) = 2 ∧
     tab_roots (read (read (init 16 "4/3" 2) sample).1 (ln "A|7" +:+ ln "D|8")).1 =
       ["E"; "B"] ++ roots ∧
     tab (read (read (init 16 "4/3" 2) sample).1 (ln "A|7" +:+ ln "D|8")).1 =
       ["7"; "8"]) ∧
  Z.of_nat (length
      (tab_roots (read_calls (init 16 "4/3" 2) [sample; ln "A|7" +:+ ln "D|8"]).1)) =
    2 * 2 ∧
  Z.of_nat (length
      (tab (read_calls (init 16 "4/3" 2) [sample; ln "A|7" +:+ ln "D|8"]).1)) = 2 ∧
  last [["0--2--1------"; "--3-------4---"]; ["7"; "8"]] =
    Some (tab (read_calls (init 16 "4/3" 2) [sample; ln "A|7" +:+ ln "D|8"]).1) ∧
  take 2 (tab_roots (read_calls (init 16 "4/3" 2) [sample; ln "A|7" +:+ ln "D|8"]).1) =
    ["E"; "B"] ∧
  print (read_calls (init 16 "4/3" 2) [sample; ln "A|7" +:+ ln "D|8"]).1 =
    (zip_with display ["E"; "B"] ["7"; "8"], Ok tt).
Proof.
  destruct (roots_accumulate 16 "4/3" 2) as [Hstep Hcalls]; [lia|].
  split.
  - apply (Hstep (read (init 16 "4/3" 2) sample).1 (ln "A|7" +:+ ln "D|8")
             (read (read (init 16 "4/3" 2) sample).1 (ln "A|7" +:+ ln "D|8")).1
             ["7"; "8"]); reflexivity.
  - destruct (Hcalls [sample; ln "A|7" +:+ ln "D|8"]
               (read_calls (init 16 "4/3" 2) [sample; ln "A|7" +:+ ln "D|8"]).1
               [["0--2--1------"; "--3-------4---"]; ["7"; "8"]])
      as [Hroots Hfirst]; [reflexivity|].
    split; [exact Hroots|].
    apply (Hfirst sample [ln "A|7" +:+ ln "D|8"]
             (read (init 16 "4/3" 2) sample).1
             ["0--2--1------"; "--3-------4---"]); reflexivity.
Defined.

(** Two calls on one decoder: the roots of the first text are printed in
    front of the sequences of the second. *)
Example print_after_two_calls :
  print (read_calls (init 16 "4/3" 2) [sample; ln "A|7" +:+ ln "D|8"]).1 =
  (["E|7"; "B|8"], Ok tt).
Proof. reflexivity. Qed.

(** * Further properties of the decoder *)

(** ** The removal loop, in general *)

Lemma list_remove_sublist x l l' :
  list_remove x l = Ok l' → l' `sublist_of` l.
Proof.
  revert l'; induction l as [|y l IH]; intros l'; simpl; [done|].
  destruct (String.eqb y x).
  - intros [= ->]. by apply sublist_cons.
  - destruct (list_remove x l) as [l''|]; simpl; [|done].
    intros [= <-]. by apply sublist_skip, IH.
Qed.

Lemma remove_loop_sublist lines idx kept :
  remove_loop lines idx = Ok kept → kept `sublist_of` lines.
Proof.
  remember (length lines - idx)%nat as m eqn:Hm.
  revert lines idx Hm.
  induction (lt_wf m) as [m _ IH]; intros lines idx ->.
  rewrite remove_loop_step.
  destruct (lines !! idx) as [line|] eqn:Hline; [|by intros [= ->]].
  pose proof (lookup_lt_Some _ _ _ Hline) as Hlt.
  destruct (remove_body line lines) as [lines'|] eqn:Hbody; [|done].
  intros Hk.
  assert (lines' `sublist_of` lines) as Hsub.
  { unfold remove_body in Hbody.
    destruct (String.eqb line str_nl); [by eapply list_remove_sublist|].
    destruct (str_getitem line 0) as [c|]; simpl in Hbody; [|done].
    destruct (String.eqb c str_bracket); [by eapply list_remove_sublist|].
    by injection Hbody as ->. }
  pose proof (sublist_length _ _ Hsub) as Hlen.
  etrans; [|exact Hsub].
  apply (IH (length lines' - S idx)%nat) with (idx := S idx); [lia|done|done].
Qed.

(** X1: the filtering loop of [read] never raises on the lines of a
    file, never drops a usable line and never reorders: what it leaves
    is a subsequence of the lines of the file that contains every usable
    line. *)
Theorem read_filter_conservative text :
  ∃ kept,
    read_filter text = Ok kept ∧
    kept `sublist_of` readlines text ∧
    usable_lines kept = usable_lines (readlines text) ∧
    (length (usable_lines (readlines text)) ≤ length kept
       ≤ length (readlines text))%nat.
Proof.
  destruct (read_filter_total text) as (kept & Hk & _ & Hus).
  exists kept. split; [done|].
  pose proof (remove_loop_sublist _ _ _ Hk) as Hsub.
  split; [done|]. split; [done|]. split.
  - rewrite <- Hus. apply List.filter_length_le.
  - by apply sublist_length.
Qed.

Lemma list_remove_middle x pre post :
  x ∉ pre → list_remove x (pre ++ x :: post) = Ok (pre ++ post).
Proof.
  induction pre as [|y pre IH]; intros Hx; simpl.
  - by rewrite String.eqb_refl.
  - apply not_elem_of_cons in Hx as [Hne Hx].
    rewrite (proj2 (String.eqb_neq y x)) by done.
    by rewrite IH.
Qed.

Lemma usable_lines_app l1 l2 :
  usable_lines (l1 ++ l2) = usable_lines l1 ++ usable_lines l2.
Proof. apply List.filter_app. Qed.

Lemma usable_lines_id l :
  Forall (λ x, usable x = true) l → usable_lines l = l.
Proof.
  induction 1 as [|x l Hx _ IH]; [done|].
  unfold usable_lines in *. simpl. by rewrite Hx, IH.
Qed.

(** With the lines before [idx] usable and no two removable lines in a
    row from [idx] on, the loop leaves the usable lines. *)
Lemma remove_loop_exact post : ∀ pre,
  Forall (λ l, l ≠ EmptyString) (pre ++ post) →
  Forall (λ l, usable l = true) pre →
  adjacent_removable post = false →
  remove_loop (pre ++ post) (length pre) = Ok (pre ++ usable_lines post).
Proof.
  remember (length post) as m eqn:Hm. revert post Hm.
  induction (lt_wf m) as [m _ IH]; intros post -> pre Hne Hpre Hadj.
  rewrite remove_loop_step.
  destruct post as [|a post].
  { rewrite app_nil_r. rewrite lookup_ge_None_2 by done.
    unfold usable_lines. simpl. by rewrite app_nil_r. }
  rewrite list_lookup_middle by done.
  assert (a ≠ EmptyString) as Ha.
  { rewrite Forall_app, Forall_cons in Hne. tauto. }
  rewrite remove_body_nonempty by done.
  destruct (usable a) eqn:Hua.
  - replace (pre ++ a :: post) with ((pre ++ [a]) ++ post)
      by by rewrite <- app_assoc.
    replace (S (length pre)) with (length (pre ++ [a]))
      by (rewrite length_app; simpl; lia).
    rewrite (IH (length post)) with (post := post); simpl; try lia; try done.
    + unfold usable_lines. simpl. rewrite Hua. by rewrite <- app_assoc.
    + by rewrite <- app_assoc.
    + apply Forall_app. split; [done|]. by repeat constructor.
    + simpl in Hadj. destruct post as [|b post]; [done|].
      by apply orb_false_elim in Hadj as [_ Hadj].
  - rewrite list_remove_middle.
    2:{ intros Hin. rewrite Forall_forall in Hpre. specialize (Hpre a Hin).
        congruence. }
    assert (usable_lines (a :: post) = usable_lines post) as ->.
    { unfold usable_lines. simpl. by rewrite Hua. }
    destruct post as [|b post].
    { rewrite remove_loop_step, app_nil_r.
      rewrite lookup_ge_None_2 by lia.
      unfold usable_lines. simpl. by rewrite app_nil_r. }
    simpl in Hadj. rewrite Hua in Hadj. simpl in Hadj.
    apply orb_false_elim in Hadj as [Hub Hadj].
    apply negb_false_iff in Hub.
    replace (pre ++ b :: post) with ((pre ++ [b]) ++ post)
      by by rewrite <- app_assoc.
    replace (S (length pre)) with (length (pre ++ [b]))
      by (rewrite length_app; simpl; lia).
    rewrite (IH (length post)) with (post := post); simpl; try lia; try done.
    + unfold usable_lines. simpl. rewrite Hub. by rewrite <- app_assoc.
    + rewrite <- app_assoc. simpl.
      rewrite Forall_app, !Forall_cons in Hne. rewrite Forall_app, Forall_cons.
      tauto.
    + apply Forall_app. split; [done|]. by repeat constructor.
    + destruct post as [|c post]; [done|].
      simpl in Hadj. by apply orb_false_elim in Hadj as [_ Hadj].
Qed.

(** X2: on a text in which no blank line or header directly follows
    another one, the filtering loop leaves exactly the usable lines: it
    agrees with the filter of the specification. *)
Theorem read_filter_exact text :
  adjacent_removable (readlines text) = false →
  read_filter text = Ok (usable_lines (readlines text)).
Proof.
  intros Hadj.
  apply (remove_loop_exact (readlines text) []); [|done|done].
  apply readlines_nonempty.
Qed.

Lemma read_filter_exact_witness :
  read_filter sample = Ok (usable_lines (readlines sample)).
Proof. apply (read_filter_exact sample). reflexivity. Defined.

(** Where every line is to be removed, every round removes one line and
    steps over the next. *)
Lemma remove_loop_halves lines idx :
  Forall (λ l, l ≠ EmptyString) lines →
  Forall (λ l, usable l = false) lines →
  (idx ≤ length lines + 1)%nat →
  ∃ kept, remove_loop lines idx = Ok kept ∧
          length kept = ((length lines + idx) / 2)%nat.
Proof.
  remember (length lines - idx)%nat as m eqn:Hm.
  revert lines idx Hm.
  induction (lt_wf m) as [m _ IH]; intros lines idx -> Hne Hrm Hidx.
  rewrite remove_loop_step.
  destruct (lines !! idx) as [line|] eqn:Hline.
  - pose proof (lookup_lt_Some _ _ _ Hline) as Hlt.
    rewrite remove_body_nonempty by (by eapply elem_nonempty).
    assert (usable line = false) as ->.
    { rewrite Forall_forall in Hrm. apply Hrm. by eapply list_elem_of_lookup_2. }
    destruct (list_remove_elem line lines) as (l' & Hl' & Hsub & _).
    { by eapply list_elem_of_lookup_2. }
    rewrite Hl'. apply list_remove_length in Hl'.
    destruct (IH (length l' - S idx)%nat) with (lines := l') (idx := S idx)
      as (kept & Hk & Hlen); [lia|done| | |lia|].
    + rewrite Forall_forall in *. intros x Hx. by apply Hne, Hsub.
    + rewrite Forall_forall in *. intros x Hx. by apply Hrm, Hsub.
    + exists kept. split; [done|]. rewrite Hlen. f_equal. lia.
  - apply lookup_ge_None in Hline. exists lines. split; [done|].
    assert (idx = length lines ∨ idx = S (length lines)) as [->| ->] by lia.
    + replace (length lines + length lines)%nat with (length lines * 2)%nat by lia.
      by rewrite Nat.div_mul.
    + replace (length lines + S (length lines))%nat
        with (1 + length lines * 2)%nat by lia.
      by rewrite Nat.div_add.
Qed.

(** X3: of a text that has blank lines and headers only, the filtering
    loop leaves half of the lines, rounded down: it removes one line and
    steps over the next. *)
Theorem read_filter_leaves_half text :
  Forall (λ l, usable l = false) (readlines text) →
  ∃ kept,
    read_filter text = Ok kept ∧
    length kept = (length (readlines text) / 2)%nat ∧
    Forall (λ l, usable l = false) kept.
Proof.
  intros Hrm.
  destruct (remove_loop_halves (readlines text) 0 (readlines_nonempty text) Hrm)
    as (kept & Hk & Hlen); [lia|].
  exists kept. split; [done|]. rewrite Nat.add_0_r in Hlen. split; [done|].
  destruct (remove_loop_total (readlines text) 0 (readlines_nonempty text))
    as (kept' & Hk' & Hsub & _).
  assert (kept' = kept) as -> by congruence.
  rewrite Forall_forall in *. intros x Hx. by apply Hrm, Hsub.
Qed.

Lemma read_filter_leaves_half_witness :
  ∃ kept,
    read_filter (ln "" +:+ ln "[A]" +:+ ln "" +:+ ln "" +:+ ln "[B]") = Ok kept ∧
    length kept =
      (length (readlines (ln "" +:+ ln "[A]" +:+ ln "" +:+ ln "" +:+ ln "[B]")) / 2)%nat ∧
    Forall (λ l, usable l = false) kept.
Proof.
  apply (read_filter_leaves_half
           (ln "" +:+ ln "[A]" +:+ ln "" +:+ ln "" +:+ ln "[B]")).
  vm_compute. repeat constructor.
Defined.

(** ** How [read] ends *)

(** X4: once the file has been opened and its lines read, an exception
    of [read] can only come from the root loop. For every text of a
    file, whenever [read] raises on it, the exception is [IndexError],
    the cached sequences are untouched, and the cached roots have grown
    all the same: by the first character of every line the filtering
    loop left, which are fewer than the decoder has strings. *)
Theorem read_failure_state self text self' e :
  read self text = (self', Raise e) →
  e = IndexError ∧
  tab self' = tab self ∧
  ∃ kept,
    read_filter text = Ok kept ∧
    Z.of_nat (length kept) < strings self ∧
    tab_roots self' = tab_roots self ++ (str_head <$> kept) ∧
    length (tab_roots self') = (length (tab_roots self) + length kept)%nat.
Proof.
  intros (-> & kept & Hk & Hlen & ->)%read_raise.
  split; [done|]. split; [done|]. exists kept.
  repeat split; try done. simpl. by rewrite length_app, length_fmap.
Qed.

Lemma read_failure_state_witness :
  IndexError = IndexError ∧
  tab (append_roots ["E"; "B"; "E"; "B"] (init 16 "4/3" 6)) =
    tab (init 16 "4/3" 6) ∧
  ∃ kept,
    read_filter sample = Ok kept ∧
    Z.of_nat (length kept) < strings (init 16 "4/3" 6) ∧
    tab_roots (append_roots ["E"; "B"; "E"; "B"] (init 16 "4/3" 6)) =
      tab_roots (init 16 "4/3" 6) ++ (str_head <$> kept) ∧
    length (tab_roots (append_roots ["E"; "B"; "E"; "B"] (init 16 "4/3" 6))) =
      (length (tab_roots (init 16 "4/3" 6)) + length kept)%nat.
Proof.
  apply (read_failure_state (init 16 "4/3" 6) sample
           (append_roots ["E"; "B"; "E"; "B"] (init 16 "4/3" 6)) IndexError).
  reflexivity.
Defined.

(** X5: [read] returns exactly when the filtering loop has left at least
    as many lines as the decoder has strings. *)
Theorem read_returns_iff self text :
  ∃ kept,
    read_filter text = Ok kept ∧
    ((∃ result, (read self text).2 = Ok result) ↔
     strings self ≤ Z.of_nat (length kept)).
Proof.
  destruct (read_filter_total text) as (kept & Hk & _ & _).
  exists kept. split; [done|]. rewrite (read_eq self text kept Hk).
  destruct (decide (strings self ≤ Z.of_nat (length kept))); simpl.
  - split; [done|]. intros _. by eexists.
  - split; [|done]. by intros [result ?].
Qed.

Lemma str_head_length line :
  line ≠ EmptyString → String.length (str_head line) = 1%nat.
Proof. by destruct line. Qed.

(** X6: when [read] returns, the roots it has appended to the cache are
    the first characters of the first lines the filtering loop left, one
    for every string, each a string of one character; lines after these
    have no part in the roots. *)
Theorem read_roots_first_lines self text self' result :
  read self text = (self', Ok result) →
  ∃ kept,
    read_filter text = Ok kept ∧
    tab_roots self' =
      tab_roots self ++ (str_head <$> take (Z.to_nat (strings self)) kept) ∧
    Forall (λ root, String.length root = 1%nat)
      (str_head <$> take (Z.to_nat (strings self)) kept) ∧
    ∀ (i : nat) line,
      Z.of_nat i < strings self → kept !! i = Some line →
      tab_roots self' !! (length (tab_roots self) + i)%nat =
        Some (str_head line).
Proof.
  intros (kept & Hk & Hn & -> & ->)%read_ok.
  destruct (read_filter_total text) as (kept' & Hk' & Hne & _).
  assert (kept' = kept) as -> by congruence.
  exists kept. split; [done|]. split; [done|]. split.
  - apply Forall_fmap, Forall_take.
    eapply Forall_impl; [exact Hne|]. intros line. apply str_head_length.
  - intros i line Hi Hline. simpl.
    rewrite lookup_app_r by lia.
    replace (length (tab_roots self) + i - length (tab_roots self))%nat
      with i by lia.
    rewrite list_lookup_fmap, lookup_take_lt by lia. by rewrite Hline.
Qed.

Lemma read_roots_first_lines_witness :
  ∃ kept,
    read_filter sample = Ok kept ∧
    tab_roots (read (init 16 "4/3" 2) sample).1 =
      tab_roots (init 16 "4/3" 2) ++
      (str_head <$> take (Z.to_nat (strings (init 16 "4/3" 2))) kept) ∧
    Forall (λ root, String.length root = 1%nat)
      (str_head <$> take (Z.to_nat (strings (init 16 "4/3" 2))) kept) ∧
    ∀ (i : nat) line,
      Z.of_nat i < strings (init 16 "4/3" 2) → kept !! i = Some line →
      tab_roots (read (init 16 "4/3" 2) sample).1
        !! (length (tab_roots (init 16 "4/3" 2)) + i)%nat =
        Some (str_head line).
Proof.
  apply (read_roots_first_lines (init 16 "4/3" 2) sample
           (read (init 16 "4/3" 2) sample).1
           ["0--2--1------"; "--3-------4---"]).
  reflexivity.
Defined.

(** X7: a decoder with no strings, or with a negative number of them,
    never fails: for every text [read] returns the empty list, empties
    the cached sequences and leaves the cached roots as they are. *)
Theorem read_without_strings self text :
  strings self ≤ 0 →
  read self text = (set_tab [] self, Ok []).
Proof.
  intros Hn. destruct (read_filter_total text) as (kept & Hk & _ & _).
  rewrite (read_eq self text kept Hk). rewrite decide_True by lia.
  unfold sequences, py_range.
  replace (Z.to_nat (strings self)) with 0%nat by lia.
  simpl. by rewrite append_roots_nil.
Qed.

Lemma read_without_strings_witness :
  read (init 16 "4/3" 0) sample = (set_tab [] (init 16 "4/3" 0), Ok []).
Proof. apply (read_without_strings (init 16 "4/3" 0) sample). simpl. lia. Defined.

(** X8: when filtering leaves no line at all, as for an empty file or a
    file of one blank line, [read] on a decoder with at least one string
    raises [IndexError] and leaves the decoder exactly as it was. *)
Theorem read_nothing_left self text :
  read_filter text = Ok [] →
  0 < strings self →
  read self text = (self, Raise IndexError).
Proof.
  intros Hk Hn. rewrite (read_eq self text [] Hk).
  rewrite decide_False by (simpl; lia). simpl. by rewrite append_roots_nil.
Qed.

Lemma read_nothing_left_witness :
  read (init 16 "4/3" 6) EmptyString = (init 16 "4/3" 6, Raise IndexError) ∧
  read (init 16 "4/3" 6) (ln "[Intro]") = (init 16 "4/3" 6, Raise IndexError).
Proof.
  split.
  - apply (read_nothing_left (init 16 "4/3" 6) EmptyString);
      [reflexivity | simpl; lia].
  - apply (read_nothing_left (init 16 "4/3" 6) (ln "[Intro]"));
      [reflexivity | simpl; lia].
Defined.

(** X9: what [read] returns depends on the text and on the number of
    strings only: the sequences and roots cached by earlier calls, the
    divisions and the time signature have no influence on the outcome. *)
Theorem read_result_ignores_caches self1 self2 text :
  strings self1 = strings self2 →
  (read self1 text).2 = (read self2 text).2.
Proof.
  intros Hs. destruct (read_filter_total text) as (kept & Hk & _ & _).
  rewrite (read_eq self1 text kept Hk), (read_eq self2 text kept Hk), Hs.
  by destruct (decide (strings self2 ≤ Z.of_nat (length kept))).
Qed.

Lemma read_result_ignores_caches_witness :
  (read (init 16 "4/3" 2) sample).2 =
  (read (read (init 8 "3/4" 2) (ln "A|7" +:+ ln "D|8")).1 sample).2.
Proof.
  apply (read_result_ignores_caches (init 16 "4/3" 2)
           (read (init 8 "3/4" 2) (ln "A|7" +:+ ln "D|8")).1 sample).
  reflexivity.
Defined.

(** ** Texts without two removable lines in a row *)

Lemma read_filter_no_adjacent text :
  adjacent_removable (readlines text) = false →
  read_filter text = Ok (usable_lines (readlines text)).
Proof.
  intros Hadj.
  apply (remove_loop_exact (readlines text) []); [|done|done].
  apply readlines_nonempty.
Qed.

(** X10: on a text in which no blank line or header directly follows
    another one, whose usable lines all end with their terminator and
    are at least as many as the decoder has strings, [read] returns the
    sequences of the specification: for every string the concatenation,
    in order, of the content of the usable lines at its positions. *)
Theorem read_well_formed self text :
  adjacent_removable (readlines text) = false →
  Forall (λ l, ∃ body, l = ln body) (usable_lines (readlines text)) →
  strings self ≤ Z.of_nat (length (usable_lines (readlines text))) →
  (read self text).2 = Ok (spec_sequences (strings self) text).
Proof.
  intros Hadj Hln Hn.
  by apply read_matches_spec; [apply read_filter_no_adjacent|..].
Qed.

Lemma read_well_formed_witness :
  (read (init 16 "4/3" 2) sample).2 = Ok (spec_sequences 2 sample).
Proof.
  apply (read_well_formed (init 16 "4/3" 2) sample).
  - reflexivity.
  - change (Forall (λ l, ∃ body, l = ln body)
              [ln "E|0--2--|"; ln "B|--3----|"; ln "E|1------|"; ln "B|---4---|"]).
    repeat (constructor; [by eexists|]). constructor.
  - apply Z.leb_le. reflexivity.
Defined.

(** X11: on a text in which no blank line or header directly follows
    another one, [read] raises [IndexError] exactly when the text has
    fewer usable lines than the decoder has strings. *)
Theorem read_too_few_usable_lines self text :
  adjacent_removable (readlines text) = false →
  ((read self text).2 = Raise IndexError ↔
   Z.of_nat (length (usable_lines (readlines text))) < strings self).
Proof.
  intros Hadj. pose proof (read_filter_no_adjacent text Hadj) as Hk.
  rewrite (read_eq self text _ Hk).
  destruct (decide (strings self ≤ _)); simpl.
  - split; [done|lia].
  - split; [lia|done].
Qed.

Lemma read_too_few_usable_lines_witness :
  (read (init 16 "4/3" 6) sample).2 = Raise IndexError ↔
  Z.of_nat (length (usable_lines (readlines sample))) < strings (init 16 "4/3" 6).
Proof. apply (read_too_few_usable_lines (init 16 "4/3" 6) sample). reflexivity. Defined.

(** ** What trimming keeps *)

Lemma substring_0_init s :
  String.substring 0 (String.length s - 1) s = str_init s.
Proof.
  induction s as [|c s IH]; [done|].
  destruct s as [|c' s]; [done|].
  replace (String.length (String c (String c' s)) - 1)%nat
    with (S (String.length (String c' s) - 1)) by (simpl; lia).
  change (str_init (String c (String c' s)))
    with (String c (str_init (String c' s))).
  by rewrite <- IH.
Qed.

(** The slice [line[2:-1]] is the line without its last character and
    without its first two. *)
Lemma trim_init line : trim line = str_drop 2 (str_init line).
Proof.
  destruct line as [|c1 [|c2 [|c3 rest]]]; [done|done|done|].
  change (str_drop 2 (str_init (String c1 (String c2 (String c3 rest)))))
    with (str_init (String c3 rest)).
  rewrite <- substring_0_init.
  unfold trim, str_slice, str_len, slice_bound.
  cbn [String.length].
  rewrite bool_decide_eq_false_2 by lia.
  rewrite bool_decide_eq_true_2 by lia.
  rewrite Z.min_r, Z.max_r by lia.
  rewrite Z.min_r, Z.max_r by lia.
  change (Z.to_nat 2) with 2%nat.
  replace (Z.to_nat _) with (String.length (String c3 rest) - 1)%nat
    by (simpl; lia).
  reflexivity.
Qed.

(** X12: the trimming loop of [read] never raises, keeps the number of
    lines, and turns every line into the line without its first two
    characters and without its last character, whatever that character
    is; a line of fewer than three characters becomes the empty
    string. *)
Theorem read_trim_drops_ends lines :
  read_trim lines = Ok ((λ line, str_drop 2 (str_init line)) <$> lines) ∧
  ∀ (i : nat) line,
    lines !! i = Some line →
    (String.length line < 3)%nat →
    ((λ line, str_drop 2 (str_init line)) <$> lines) !! i = Some EmptyString.
Proof.
  split.
  - rewrite read_trim_eq. f_equal. apply list_fmap_ext.
    intros _ line _. apply trim_init.
  - intros i line Hline Hlen. rewrite list_lookup_fmap, Hline. simpl.
    f_equal. by destruct line as [|c1 [|c2 [|c3 rest]]]; simpl in *; try lia.
Qed.

Lemma str_contains_drop c k : ∀ s,
  str_contains c s = false → str_contains c (str_drop k s) = false.
Proof.
  induction k as [|k IH]; intros [|a s]; simpl; try done.
  intros [_ Hs]%orb_false_elim. by apply IH.
Qed.

(** A line of a file has no newline before its last character. *)
Lemma readlines_init_no_newline text :
  Forall (λ l, str_contains newline (str_init l) = false) (readlines text).
Proof.
  induction text as [|c rest IH]; simpl; [constructor|].
  destruct (Ascii.eqb c newline) eqn:Hc.
  - by constructor.
  - pose proof (readlines_nonempty rest) as Hne.
    destruct (readlines rest) as [|line lines].
    + by repeat constructor.
    + apply Forall_cons in IH as [Hl IH].
      apply Forall_cons in Hne as [Hne _].
      constructor; [|done].
      destruct line as [|c' line]; [done|].
      change (str_init (String c (String c' line)))
        with (String c (str_init (String c' line))).
      change (Ascii.eqb c newline
              || str_contains newline (str_init (String c' line)) = false).
      by rewrite Hc, Hl.
Qed.

(** X13: the sequences [read] returns contain no newline and no bar,
    whatever the text of the file. *)
Theorem read_result_no_newline_no_bar self text self' result :
  read self text = (self', Ok result) →
  Forall (λ s, str_contains newline s = false ∧ str_contains pipe s = false)
    result.
Proof.
  intros (kept & Hk & _ & -> & _)%read_ok.
  pose proof (remove_loop_total (readlines text) 0 (readlines_nonempty text))
    as (kept' & Hk' & Hsub & _).
  assert (kept' = kept) as -> by (unfold read_filter in Hk; congruence).
  unfold sequences. apply Forall_fmap, Forall_forall. intros i _. simpl.
  unfold group. split.
  - apply str_contains_join, lines_at_Forall, Forall_fmap, Forall_forall.
    intros line Hline%Hsub. simpl. unfold content.
    pose proof (readlines_init_no_newline text) as Hnl.
    rewrite Forall_forall in Hnl. specialize (Hnl line Hline).
    rewrite trim_init.
    apply (str_contains_drop newline 2) in Hnl.
    revert Hnl. generalize (str_drop 2 (str_init line)). clear.
    intros s. induction s as [|a s IH]; [done|]. simpl.
    intros [Ha Hs]%orb_false_elim.
    destruct (Ascii.eqb a pipe); simpl; [by apply IH|].
    by rewrite Ha, IH.
  - apply str_contains_join, lines_at_Forall, Forall_fmap, Forall_forall.
    intros line _. apply str_contains_replace.
Qed.

Lemma read_result_no_newline_no_bar_witness :
  Forall (λ s, str_contains newline s = false ∧ str_contains pipe s = false)
    ["0--2--1------"; "--3-------4---"].
Proof.
  apply (read_result_no_newline_no_bar (init 16 "4/3" 2) sample
           (read (init 16 "4/3" 2) sample).1).
  reflexivity.
Defined.

(** ** The caches and [print] *)

(** [read] keeps a root in the cache for every cached sequence, whether
    it returns or raises. *)
Lemma read_keeps_roots_for_sequences self text :
  (length (tab self) ≤ length (tab_roots self))%nat →
  (length (tab (read self text).1) ≤ length (tab_roots (read self text).1))%nat.
Proof.
  intros Hinv. destruct (read_filter_total text) as (kept & Hk & _ & _).
  rewrite (read_eq self text kept Hk).
  destruct (decide (strings self ≤ Z.of_nat (length kept))); simpl.
  - rewrite length_sequences, length_app, length_fmap, length_take. lia.
  - rewrite length_app. lia.
Qed.

Lemma read_calls_keeps_roots_for_sequences texts : ∀ self,
  (length (tab self) ≤ length (tab_roots self))%nat →
  (length (tab (read_calls self texts).1)
     ≤ length (tab_roots (read_calls self texts).1))%nat.
Proof.
  induction texts as [|text texts IH]; intros self Hinv; [done|].
  simpl. pose proof (read_keeps_roots_for_sequences self text Hinv) as Hinv'.
  destruct (read self text) as [self' r]. specialize (IH self' Hinv').
  by destruct (read_calls self' texts) as [self'' rs].
Qed.

(** X14: on a decoder made by the constructor and used for any calls of
    [read], whether they returned or raised, [print] never raises: there
    is a cached root for every cached sequence, and [print] writes one
    line for every cached sequence. *)
Theorem print_never_raises_after_reads d ts n texts :
  let self := (read_calls (init d ts n) texts).1 in
  (length (tab self) ≤ length (tab_roots self))%nat ∧
  ∃ out, print self = (out, Ok tt) ∧ length out = length (tab self).
Proof.
  intros self.
  assert (length (tab self) ≤ length (tab_roots self))%nat as Hinv.
  { apply read_calls_keeps_roots_for_sequences. simpl. lia. }
  split; [done|]. eexists. split; [by apply print_eq|].
  by rewrite length_zip_with_r by lia.
Qed.

Lemma print_loop_short self k : ∀ a out,
  (a ≤ length (tab_roots self))%nat →
  (a + k ≤ length (tab self))%nat →
  mfor (Z.of_nat <$> seq a k) (λ i,
    root ←$ lift (list_getitem (tab_roots self) i);
    seq_i ←$ lift (list_getitem (tab self) i);
    modify (λ out, out ++ [root +:+ str_pipe +:+ seq_i])) out =
  (out ++ zip_with display (drop a (tab_roots self))
                           (take k (drop a (tab self))),
   if decide (a + k ≤ length (tab_roots self))%nat
   then Ok tt else Raise IndexError).
Proof.
  induction k as [|k IH]; intros a out Hr Ht.
  - simpl. rewrite decide_True by lia.
    by destruct (drop a (tab_roots self)); simpl; rewrite app_nil_r.
  - cbn [seq fmap list_fmap mfor].
    destruct (lookup_lt_is_Some_2 (tab self) a) as [s Hs']; [lia|].
    unfold sbind at 1. unfold sbind at 1. unfold lift at 1.
    rewrite list_getitem_nat.
    destruct (tab_roots self !! a) as [r|] eqn:Hr'.
    + pose proof (lookup_lt_Some _ _ _ Hr') as Hlt.
      unfold sbind at 1. unfold lift at 1.
      rewrite list_getitem_nat, Hs'.
      unfold modify at 1.
      rewrite (IH (S a)) by lia.
      rewrite (drop_S _ r a Hr'), (drop_S _ s a Hs').
      cbn [take zip_with]. rewrite <- app_assoc. simpl. f_equal.
      repeat case_decide; done || lia.
    + apply lookup_ge_None in Hr'.
      rewrite decide_False by lia. rewrite drop_ge by lia. simpl.
      by rewrite app_nil_r.
Qed.

(** X15: on a decoder with fewer cached roots than cached sequences
    [print] writes a line for every root there is, in order, and then
    raises [IndexError]. *)
Theorem print_with_too_few_roots self :
  (length (tab_roots self) < length (tab self))%nat →
  print self = (zip_with display (tab_roots self) (tab self), Raise IndexError) ∧
  length (zip_with display (tab_roots self) (tab self)) =
    length (tab_roots self).
Proof.
  intros Hlen. unfold print, print_body. rewrite py_range_nat.
  rewrite (print_loop_short self _ 0 []) by lia.
  rewrite !drop_0, take_ge by lia. simpl.
  rewrite decide_False by lia. split; [done|].
  by rewrite length_zip_with_l by lia.
Qed.

Lemma print_with_too_few_roots_witness :
  print (set_tab ["0-2"; "-3-"; "---"] (append_roots ["E"; "B"] (init 16 "4/3" 3))) =
    (zip_with display ["E"; "B"] ["0-2"; "-3-"; "---"], Raise IndexError) ∧
  length (zip_with display ["E"; "B"] ["0-2"; "-3-"; "---"]) = 2%nat.
Proof.
  apply (print_with_too_few_roots
           (set_tab ["0-2"; "-3-"; "---"]
              (append_roots ["E"; "B"] (init 16 "4/3" 3)))).
  simpl. lia.
Defined.

(** ** The program *)

(** X16: [main] either writes nothing and ends with [IndexError], when
    filtering leaves fewer than six lines of the file, or pretty-prints
    six sequences and then prints six lines, line [i] being the first
    character of line [i] left of the file, a bar and sequence [i]. *)
Theorem main_output text :
  ∃ kept,
    read_filter text = Ok kept ∧
    (Z.of_nat (length kept) < 6 → main text = ([], Raise IndexError)) ∧
    (6 ≤ Z.of_nat (length kept) →
     ∃ result lines,
       main text = (PPrint result :: (PrintLine <$> lines), Ok tt) ∧
       length result = 6%nat ∧
       length lines = 6%nat ∧
       (read (init 16 "4/3" 6) text).2 = Ok result ∧
       ∀ (i : nat) line seq_i,
         kept !! i = Some line → result !! i = Some seq_i →
         lines !! i = Some (str_head line +:+ str_pipe +:+ seq_i)).
Proof.
  destruct (read_filter_total text) as (kept & Hk & _ & _).
  exists kept. split; [done|]. unfold main.
  rewrite (read_eq _ text kept Hk). simpl strings. split.
  - intros Hlen. by rewrite decide_False by lia.
  - intros Hlen. rewrite decide_True by lia.
    pose proof (length_sequences 6 kept) as Hls.
    assert (length (str_head <$> take (Z.to_nat 6) kept) = 6%nat) as Hlr.
    { rewrite length_fmap, length_take. lia. }
    change (Z.to_nat 6) with 6%nat in Hls.
    remember (sequences 6 kept) as result eqn:Hres.
    remember (str_head <$> take (Z.to_nat 6) kept) as roots eqn:Hroots.
    rewrite print_eq by (cbn [tab tab_roots set_tab append_roots init app]; lia).
    cbn [tab tab_roots set_tab append_roots init app].
    eexists _, _. split; [done|]. split; [done|]. split.
    { rewrite length_zip_with_r; [done|lia]. }
    split; [done|].
    intros i line seq_i Hline Hseq.
    pose proof (lookup_lt_Some _ _ _ Hseq) as Hi.
    apply lookup_display; [|done].
    rewrite Hroots, list_lookup_fmap, lookup_take_lt by lia. by rewrite Hline.
Qed.

(** ** Whole blocks, one after the other *)

Lemma append_assoc (x y z : string) : (x +:+ y) +:+ z = x +:+ (y +:+ z).
Proof.
  induction x as [|c x IH]; [done|].
  change (String c ((x +:+ y) +:+ z) = String c (x +:+ (y +:+ z))).
  by rewrite IH.
Qed.

Lemma str_join_app a b :
  str_join "" (a ++ b) = str_join "" a +:+ str_join "" b.
Proof.
  rewrite !str_join_empty. induction a as [|x a IH]; [done|].
  simpl. by rewrite IH, append_assoc.
Qed.

Lemma fmap_seq_shift a k :
  Z.of_nat <$> seq a k = (λ j, j + Z.of_nat a) <$> (Z.of_nat <$> seq 0 k).
Proof.
  replace a with (a + 0)%nat at 1 by lia.
  rewrite <- fmap_add_seq, <- !list_fmap_compose.
  apply list_fmap_ext. intros _ j _. simpl. lia.
Qed.

Lemma filter_zip_shift {A} (Q : Z → bool) (g : Z → Z) idxs : ∀ l : list A,
  (∀ j, Q (g j) = Q j) →
  snd <$> List.filter (λ p, Q p.1) (zip (g <$> idxs) l) =
  snd <$> List.filter (λ p, Q p.1) (zip idxs l).
Proof.
  induction idxs as [|j idxs IH]; intros [|x l] Hg; try done.
  cbn [fmap list_fmap zip zip_with List.filter fst].
  rewrite Hg. destruct (Q j); cbn [fmap list_fmap snd]; by rewrite <- IH.
Qed.

(** After a whole number of blocks the positions of a string start
    over. *)
Lemma lines_at_app i n k1 k2 :
  0 < n → Z.of_nat (length k1) `mod` n = 0 →
  lines_at i n (k1 ++ k2) = lines_at i n k1 ++ lines_at i n k2.
Proof.
  intros Hn Hmod. unfold lines_at.
  rewrite length_app, seq_app, fmap_app.
  rewrite zip_with_app by by rewrite length_fmap, length_seq.
  rewrite List.filter_app, fmap_app. f_equal.
  rewrite Nat.add_0_l, fmap_seq_shift.
  apply (filter_zip_shift (λ j, Z.eqb (j `mod` n) i)).
  intros j. f_equal.
  rewrite Z.add_mod, Hmod, Z.add_0_r, Z.mod_mod by lia. done.
Qed.

Lemma zip_with_fmap_same {A B C D} (f : B → C → D) (g : A → B) (h : A → C) l :
  zip_with f (g <$> l) (h <$> l) = (λ i, f (g i) (h i)) <$> l.
Proof. induction l as [|x l IH]; simpl; [done|]. f_equal. apply IH. Qed.

Lemma sequences_app n k1 k2 :
  0 < n → Z.of_nat (length k1) `mod` n = 0 →
  sequences n (k1 ++ k2) =
  zip_with String.append (sequences n k1) (sequences n k2).
Proof.
  intros Hn Hmod. unfold sequences. rewrite zip_with_fmap_same.
  apply list_fmap_ext. intros _ i _. unfold group.
  rewrite fmap_app, lines_at_app by by rewrite ?length_fmap.
  apply str_join_app.
Qed.

Lemma readlines_ln_nonempty t : readlines (ln t) ≠ [].
Proof.
  destruct t as [|c t]; [done|].
  change (ln (String c t)) with (String c (ln t)). simpl.
  destruct (Ascii.eqb c newline); [done|].
  by destruct (readlines (ln t)).
Qed.

(** A text that ends with a newline is cut into lines on its own. *)
Lemma readlines_ln_app t1 t2 :
  readlines (ln t1 +:+ t2) = readlines (ln t1) ++ readlines t2.
Proof.
  induction t1 as [|c t1 IH]; [done|].
  change (ln (String c t1) +:+ t2) with (String c (ln t1 +:+ t2)).
  change (ln (String c t1)) with (String c (ln t1)).
  cbn [readlines]. rewrite IH.
  destruct (Ascii.eqb c newline); [done|].
  pose proof (readlines_ln_nonempty t1) as Hne.
  by destruct (readlines (ln t1)).
Qed.

(** X17: decoding goes block by block. For two texts without blank lines
    and headers, the first ending with a newline and made of whole
    blocks (its number of lines is a multiple of the number of strings),
    [read] of the first text followed by the second returns, for every
    string, the sequence of the first text followed by the sequence of
    the second. *)
Theorem read_appended_blocks self t1 t2 r1 r2 :
  0 < strings self →
  Forall (λ l, usable l = true) (readlines (ln t1)) →
  Forall (λ l, usable l = true) (readlines t2) →
  Z.of_nat (length (readlines (ln t1))) `mod` strings self = 0 →
  (read self (ln t1)).2 = Ok r1 →
  (read self t2).2 = Ok r2 →
  (read self (ln t1 +:+ t2)).2 = Ok (zip_with String.append r1 r2).
Proof.
  intros Hn Hu1 Hu2 Hmod H1 H2.
  pose proof (read_filter_usable _ Hu1) as Hk1.
  pose proof (read_filter_usable _ Hu2) as Hk2.
  assert (read_filter (ln t1 +:+ t2) = Ok (readlines (ln t1) ++ readlines t2))
    as Hk.
  { rewrite <- readlines_ln_app. apply read_filter_usable.
    rewrite readlines_ln_app. by apply Forall_app. }
  rewrite (read_eq self _ _ Hk1) in H1. rewrite (read_eq self _ _ Hk2) in H2.
  rewrite (read_eq self _ _ Hk).
  destruct (decide (strings self ≤ Z.of_nat (length (readlines (ln t1)))));
    [|done].
  destruct (decide (strings self ≤ Z.of_nat (length (readlines t2))));
    [|done].
  rewrite decide_True by (rewrite length_app; lia).
  simpl in *. injection H1 as <-. injection H2 as <-.
  by rewrite sequences_app.
Qed.

Lemma read_appended_blocks_witness :
  (read (init 16 "4/3" 2)
     (ln ("E|0--2--|" +:+ str_nl +:+ "B|--3----|") +:+
      (ln "E|1------|" +:+ ln "B|---4---|"))).2 =
  Ok (zip_with String.append ["0--2--"; "--3----"] ["1------"; "---4---"]).
Proof.
  apply (read_appended_blocks (init 16 "4/3" 2)
           ("E|0--2--|" +:+ str_nl +:+ "B|--3----|")
           (ln "E|1------|" +:+ ln "B|---4---|")).
  - simpl. lia.
  - vm_compute. repeat constructor.
  - vm_compute. repeat constructor.
  - reflexivity.
  - reflexivity.
  - reflexivity.
Defined.

(** ** Every character goes to one string *)

Lemma length_str_join parts :
  String.length (str_join "" parts) = sum_list (String.length <$> parts).
Proof.
  rewrite str_join_empty. induction parts as [|x parts IH]; [done|].
  simpl. by rewrite append_length, IH.
Qed.

Lemma sum_list_fmap_add {A} (f g : A → nat) l :
  sum_list ((λ i, f i + g i)%nat <$> l) =
  (sum_list (f <$> l) + sum_list (g <$> l))%nat.
Proof.
  induction l as [|x l IH]; [done|].
  change (f x + g x + sum_list ((λ i, f i + g i) <$> l) =
          f x + sum_list (f <$> l) + (g x + sum_list (g <$> l)))%nat.
  rewrite IH. lia.
Qed.

Lemma sum_list_indicator (r : Z) (a k : nat) :
  0 ≤ r →
  sum_list ((λ i, if Z.eqb r i then a else 0%nat) <$> (Z.of_nat <$> seq 0 k)) =
  if decide (r < Z.of_nat k) then a else 0%nat.
Proof.
  intros Hr. induction k as [|k IH].
  - simpl. by rewrite decide_False by lia.
  - rewrite seq_S, !fmap_app, sum_list_with_app, IH. simpl.
    destruct (Z.eqb_spec r (Z.of_nat k)); repeat case_decide; lia.
Qed.

Lemma sum_list_lines_at n (z : list (Z * string)) :
  0 < n →
  sum_list
    ((λ i, sum_list (String.length <$>
                       (snd <$> List.filter (λ p, Z.eqb (p.1 `mod` n) i) z)))
       <$> py_range n) =
  sum_list (String.length <$> (snd <$> z)).
Proof.
  intros Hn. induction z as [|[j x] z IH].
  - simpl. rewrite sum_list_fmap_const. lia.
  - change (sum_list (String.length <$> ((j, x) :: z).*2))
      with (String.length x + sum_list (String.length <$> z.*2))%nat.
    rewrite <- IH.
    rewrite (list_fmap_ext _
      (λ i, ((if Z.eqb (j `mod` n) i then String.length x else 0) +
             sum_list (String.length <$>
               (snd <$> List.filter (λ p, Z.eqb (p.1 `mod` n) i) z)))%nat)).
    2:{ intros _ i _. cbn [List.filter fst].
        by destruct (Z.eqb (j `mod` n) i). }
    rewrite sum_list_fmap_add. f_equal.
    unfold py_range.
    rewrite sum_list_indicator by (apply Z.mod_pos_bound; lia).
    rewrite decide_True; [done|].
    pose proof (Z.mod_pos_bound j n). lia.
Qed.

(** X18: interleaving loses and repeats nothing. With at least one
    string, the sequences [read] returns have as many characters in
    all as the lines the filtering loop left have after trimming and bar
    removal, and every sequence is as long as its lines together. *)
Theorem read_keeps_every_character self text self' result :
  0 < strings self →
  read self text = (self', Ok result) →
  ∃ kept,
    read_filter text = Ok kept ∧
    sum_list (String.length <$> result) =
      sum_list ((λ line,
          String.length (str_replace pipe "" (str_drop 2 (str_init line))))
        <$> kept) ∧
    ∀ (i : nat) seq_i,
      result !! i = Some seq_i →
      String.length seq_i =
        sum_list ((λ line,
            String.length (str_replace pipe "" (str_drop 2 (str_init line))))
          <$> lines_at (Z.of_nat i) (strings self) kept).
Proof.
  intros Hn (kept & Hk & _ & -> & _)%read_ok.
  exists kept. split; [done|].
  assert (∀ l : list string,
            String.length <$> (content <$> l) =
            (λ line, String.length
                       (str_replace pipe "" (str_drop 2 (str_init line)))) <$> l)
    as Hcontent.
  { intros l. rewrite <- list_fmap_compose. apply list_fmap_ext.
    intros _ line _. simpl. unfold content. by rewrite trim_init. }
  split.
  - rewrite <- Hcontent. unfold sequences. rewrite <- list_fmap_compose.
    erewrite list_fmap_ext.
    2:{ intros _ i _. simpl. unfold group. rewrite length_str_join.
        unfold lines_at. reflexivity. }
    rewrite (sum_list_lines_at (strings self)) by done.
    rewrite snd_zip; [done|].
    repeat (rewrite ?length_fmap, ?length_seq). lia.
  - intros i seq_i Hseq.
    pose proof (lookup_lt_Some _ _ _ Hseq) as Hi.
    rewrite length_sequences in Hi.
    rewrite lookup_sequences in Hseq by done. injection Hseq as <-.
    unfold group. by rewrite length_str_join, lines_at_fmap, Hcontent.
Qed.

Lemma read_keeps_every_character_witness :
  ∃ kept,
    read_filter sample = Ok kept ∧
    sum_list (String.length <$> ["0--2--1------"; "--3-------4---"]) =
      sum_list ((λ line,
          String.length (str_replace pipe "" (str_drop 2 (str_init line))))
        <$> kept) ∧
    ∀ (i : nat) seq_i,
      ["0--2--1------"; "--3-------4---"] !! i = Some seq_i →
      String.length seq_i =
        sum_list ((λ line,
            String.length (str_replace pipe "" (str_drop 2 (str_init line))))
          <$> lines_at (Z.of_nat i) (strings (init 16 "4/3" 2)) kept).
Proof.
  apply (read_keeps_every_character (init 16 "4/3" 2) sample
           (read (init 16 "4/3" 2) sample).1).
  - simpl. lia.
  - reflexivity.
Defined.

(** ** Blank lines and headers that are not in a row *)

(** X19: blank lines and headers that do not follow one another have no
    influence. Two texts with the same usable lines, in neither of which
    a blank line or header directly follows another one, make [read] end
    the same way and leave the decoder in the same state. *)
Theorem read_ignores_separated_removable_lines self t1 t2 :
  adjacent_removable (readlines t1) = false →
  adjacent_removable (readlines t2) = false →
  usable_lines (readlines t1) = usable_lines (readlines t2) →
  read self t1 = read self t2.
Proof.
  intros H1%read_filter_no_adjacent H2%read_filter_no_adjacent Heq.
  rewrite (read_eq self t1 _ H1), (read_eq self t2 _ H2). by rewrite Heq.
Qed.

Lemma read_ignores_separated_removable_lines_witness :
  read (init 16 "4/3" 2) sample =
  read (init 16 "4/3" 2)
    (ln "E|0--2--|" +:+ ln "B|--3----|" +:+ ln "[Verse]" +:+
     ln "E|1------|" +:+ ln "" +:+ ln "B|---4---|").
Proof.
  apply (read_ignores_separated_removable_lines (init 16 "4/3" 2) sample
           (ln "E|0--2--|" +:+ ln "B|--3----|" +:+ ln "[Verse]" +:+
            ln "E|1------|" +:+ ln "" +:+ ln "B|---4---|"));
    reflexivity.
Defined.

(** ** One block *)

(** X20: for every text of exactly as many lines as the decoder has
    strings, none of them blank or a header, [read] returns, and the
    sequence of string [i] is line [i] without its first two characters,
    without its last character and without bars. Where line [i] ends
    with its terminator, that is the content of the specification. *)
Theorem read_one_block self text :
  Forall (λ l, usable l = true) (readlines text) →
  Z.of_nat (length (readlines text)) = strings self →
  ∃ self' result,
    read self text = (self', Ok result) ∧
    length result = length (readlines text) ∧
    ∀ (i : nat) line, readlines text !! i = Some line →
      result !! i = Some (str_replace pipe "" (str_drop 2 (str_init line))) ∧
      ∀ body, line = ln body → result !! i = Some (spec_content line).
Proof.
  intros Hus Hlen.
  pose proof (read_filter_usable text Hus) as Hk.
  rewrite (read_eq self text _ Hk). rewrite decide_True by lia.
  eexists _, _. split; [done|]. rewrite length_sequences.
  split; [lia|]. intros i line Hline.
  pose proof (lookup_lt_Some _ _ _ Hline) as Hlt.
  assert (sequences (strings self) (readlines text) !! i =
          Some (str_replace pipe "" (trim line))) as Hres.
  { rewrite lookup_sequences by lia. f_equal.
    unfold group. rewrite <- Hlen.
    rewrite <- (length_fmap content (readlines text)).
    rewrite (lines_at_single_block i _ (content line)).
    - unfold str_join. done.
    - by rewrite list_lookup_fmap, Hline. }
  split; [by rewrite Hres, trim_init|].
  intros body ->. rewrite Hres.
  unfold spec_content. by destruct (trim_ln body) as [<- _].
Qed.

Lemma read_one_block_witness :
  ∃ self' result,
    read (init 16 "4/3" 2) two_lines_no_final_newline = (self', Ok result) ∧
    length result = length (readlines two_lines_no_final_newline) ∧
    ∀ (i : nat) line,
      readlines two_lines_no_final_newline !! i = Some line →
      result !! i = Some (str_replace pipe "" (str_drop 2 (str_init line))) ∧
      ∀ body, line = ln body → result !! i = Some (spec_content line).
Proof.
  apply (read_one_block (init 16 "4/3" 2) two_lines_no_final_newline).
  - vm_compute. repeat constructor.
  - reflexivity.
Defined.
